(** * The UI generator backend: the POST /generate handler

    A shallow embedding of the request handler of the repository (the
    three-stage planner / generator / explainer pipeline) together with
    the parts of the JavaScript runtime it relies on: strings as
    sequences of UTF-16 code units, the values a JSON body can hold,
    ToBoolean, ToString, String.prototype.trim, JSON.parse and
    JSON.stringify with an indentation of two spaces.

    The model client and IEEE-754 numbers are external to the repository
    and stay abstract: the first is a stub with a state of its own, the
    second an interface with the four operations the handler reaches. *)

From Stdlib Require Import List String Ascii NArith ZArith Bool.
From Stdlib Require Import Arith Lia.
Import ListNotations.
Local Open Scope string_scope.
Local Open Scope N_scope.
Local Open Scope list_scope.

(** ** JavaScript strings *)

Module JS.

(** A JavaScript string is a sequence of 16-bit code units. *)
Definition code_unit := N.
Definition JSString := list code_unit.

(** The code units of an ASCII literal of the source text. *)
Definition lit (s : string) : JSString :=
  map N_of_ascii (list_ascii_of_string s).

Definition LF : JSString := [10].
Definition DQ : JSString := [34].

(** [quoted s] is [s] between two double quotes. *)
Definition quoted (s : JSString) : JSString := DQ ++ s ++ DQ.

Fixpoint str_eqb (a b : JSString) : bool :=
  match a, b with
  | [], [] => true
  | x :: a', y :: b' => (x =? y) && str_eqb a' b'
  | _, _ => false
  end.

(** Array.prototype.join on strings that are already converted. *)
Fixpoint join (sep : JSString) (parts : list JSString) : JSString :=
  match parts with
  | [] => []
  | [p] => p
  | p :: rest => p ++ sep ++ join sep rest
  end.

(** *** String.prototype.trim

    The code points of WhiteSpace and LineTerminator of ECMA-262; all
    of them lie in the basic plane, so each is one code unit. *)
Definition isWhiteSpaceOrLineTerminator (c : code_unit) : bool :=
  (c =? 9) || (c =? 10) || (c =? 11) || (c =? 12) || (c =? 13) ||
  (c =? 32) || (c =? 160) || (c =? 5760) ||
  ((8192 <=? c) && (c <=? 8202)) ||
  (c =? 8232) || (c =? 8233) || (c =? 8239) || (c =? 8287) ||
  (c =? 12288) || (c =? 65279).

Fixpoint trimStart (s : JSString) : JSString :=
  match s with
  | c :: s' => if isWhiteSpaceOrLineTerminator c then trimStart s' else s
  | [] => []
  end.

Definition trimEnd (s : JSString) : JSString := rev (trimStart (rev s)).

Definition trim (s : JSString) : JSString := trimEnd (trimStart s).

(** ** Errors

    The values the handler can catch: the two native errors the runtime
    raises on its paths, and whatever the model client fails with (a
    rejected request or a response whose text cannot be read). *)
Inductive JSError :=
| TypeError
| SyntaxError
| ClientError (reason : JSString).

Definition Completion (A : Type) : Type := (JSError + A)%type.

(** ** Numbers

    JavaScript numbers are IEEE-754 doubles.  The handler never computes
    with them: it reads them from JSON text, tests them for truthiness
    and prints them.  These operations form the interface below. *)
Class Float64 (num : Type) := {
  (** the Number value of a JSON number literal *)
  StringToNumber : JSString -> num;
  (** Number::toString in radix 10 *)
  Number_toString : num -> JSString;
  (** neither NaN nor an infinity *)
  Number_isFinite : num -> bool;
  (** ToBoolean on a number: false for +0, -0 and NaN *)
  Number_toBoolean : num -> bool
}.

(** ** Values *)
Section Values.
Context {num : Type} {F64 : Float64 num}.

(** The values a parsed JSON text holds, and [undefined] for what is
    absent.  An object lists its own properties in enumeration order. *)
#[local] Unset Elimination Schemes.
Inductive JSValue :=
| JUndefined
| JNull
| JBool (b : bool)
| JNumber (n : num)
| JString (s : JSString)
| JArray (items : list JSValue)
| JObject (props : list (JSString * JSValue)).
#[local] Set Elimination Schemes.

(** ToBoolean. *)
Definition ToBoolean (v : JSValue) : bool :=
  match v with
  | JUndefined | JNull => false
  | JBool b => b
  | JNumber n => Number_toBoolean n
  | JString s => match s with [] => false | _ :: _ => true end
  | JArray _ | JObject _ => true
  end.

(** [a || b]. *)
Definition logical_or (a b : JSValue) : JSValue :=
  if ToBoolean a then a else b.

Fixpoint own_property (props : list (JSString * JSValue)) (key : JSString)
  : option JSValue :=
  match props with
  | [] => None
  | (k, v) :: rest => if str_eqb k key then Some v else own_property rest key
  end.

Definition has_own_property (props : list (JSString * JSValue))
  (key : JSString) : bool :=
  match own_property props key with Some _ => true | None => false end.

(** ToString, as a template literal applies it to a substitution.

    An array goes through Array.prototype.join with a comma, where
    undefined and null elements give the empty string.  A plain object
    gives [[object Object]] through Object.prototype.toString, unless
    it has an own property named toString: a JSON value is never
    callable, so OrdinaryToPrimitive skips it, gets the object itself
    back from valueOf (or skips an own valueOf as well) and throws a
    TypeError. *)
Fixpoint ToString (v : JSValue) : Completion JSString :=
  match v with
  | JUndefined => inr (lit "undefined")
  | JNull => inr (lit "null")
  | JBool true => inr (lit "true")
  | JBool false => inr (lit "false")
  | JNumber n => inr (Number_toString n)
  | JString s => inr s
  | JArray items =>
      (fix join_elements (l : list JSValue) : Completion JSString :=
         match l with
         | [] => inr []
         | x :: rest =>
             let next :=
               match x with
               | JUndefined | JNull => inr []
               | _ => ToString x
               end in
             match next with
             | inl e => inl e
             | inr s =>
                 match rest with
                 | [] => inr s
                 | _ :: _ =>
                     match join_elements rest with
                     | inl e => inl e
                     | inr r => inr (s ++ lit "," ++ r)
                     end
                 end
             end
         end) items
  | JObject props =>
      if has_own_property props (lit "toString") then inl TypeError
      else inr (lit "[object Object]")
  end.

(** GetV for a property name that is neither an array index nor
    [length] and that no built-in prototype defines: only an own
    property of an object can answer. *)
Definition GetV (v : JSValue) (key : JSString) : JSValue :=
  match v with
  | JObject props =>
      match own_property props key with
      | Some x => x
      | None => JUndefined
      end
  | _ => JUndefined
  end.

End Values.

Arguments JSValue : clear implicits.

End JS.

(** ** JSON *)

Module JSON.
Import JS.

Section Json.
Context {num : Type} {F64 : Float64 num}.

#[local] Abbreviation JSValue := (JSValue num).

(** *** Property order

    An ordinary object enumerates its array-index keys first, in
    ascending numeric order, and its other string keys after them, in
    the order of their creation. *)

Definition isDigit (c : code_unit) : bool := (48 <=? c) && (c <=? 57).

Fixpoint decimal_value (acc : N) (s : JSString) : N :=
  match s with
  | [] => acc
  | c :: s' => decimal_value (10 * acc + (c - 48)) s'
  end.

(** An array index is the canonical decimal form of an integer between
    0 and 2^32 - 2. *)
Definition array_index (key : JSString) : option N :=
  match key with
  | [] => None
  | [48] => Some 0
  | c :: _ =>
      if (49 <=? c) && (c <=? 57) && forallb isDigit key
         && Nat.leb (List.length key) 10
         && (decimal_value 0 key <=? 4294967294)
      then Some (decimal_value 0 key)
      else None
  end.

(** Where a new array-index key [i] goes: before the first key that is
    not an array index or is a greater one. *)
Fixpoint insert_index (i : N) (key : JSString) (v : JSValue)
  (props : list (JSString * JSValue)) : list (JSString * JSValue) :=
  match props with
  | [] => [(key, v)]
  | (k, x) :: rest =>
      match array_index k with
      | Some j =>
          if j <? i then (k, x) :: insert_index i key v rest
          else (key, v) :: props
      | None => (key, v) :: props
      end
  end.

Fixpoint replace_value (key : JSString) (v : JSValue)
  (props : list (JSString * JSValue)) : list (JSString * JSValue) :=
  match props with
  | [] => []
  | (k, x) :: rest =>
      if str_eqb k key then (k, v) :: rest
      else (k, x) :: replace_value key v rest
  end.

(** CreateDataProperty on an ordinary object: an existing key keeps
    its place and takes the new value. *)
Definition CreateDataProperty (props : list (JSString * JSValue))
  (key : JSString) (v : JSValue) : list (JSString * JSValue) :=
  if has_own_property props key then replace_value key v props
  else
    match array_index key with
    | Some i => insert_index i key v props
    | None => props ++ [(key, v)]
    end.

(** *** JSON.stringify with a gap of two spaces *)

Definition hex_digit (n : N) : code_unit :=
  if n <? 10 then 48 + n else 87 + n.

(** UnicodeEscape: a backslash, [u] and four lowercase hex digits. *)
Definition UnicodeEscape (c : code_unit) : JSString :=
  [92; 117; hex_digit ((c / 4096) mod 16); hex_digit ((c / 256) mod 16);
   hex_digit ((c / 16) mod 16); hex_digit (c mod 16)].

Definition isLeadingSurrogate (c : code_unit) : bool :=
  (55296 <=? c) && (c <=? 56319).
Definition isTrailingSurrogate (c : code_unit) : bool :=
  (56320 <=? c) && (c <=? 57343).

Definition escape_unit (c : code_unit) : JSString :=
  if c =? 8 then [92; 98]
  else if c =? 9 then [92; 116]
  else if c =? 10 then [92; 110]
  else if c =? 12 then [92; 102]
  else if c =? 13 then [92; 114]
  else if c =? 34 then [92; 34]
  else if c =? 92 then [92; 92]
  else if (c <? 32) || isLeadingSurrogate c || isTrailingSurrogate c
       then UnicodeEscape c
  else [c].

(** The body of QuoteJSONString: a well-formed surrogate pair is one
    code point and is copied; a lone surrogate is escaped. *)
Fixpoint quote_units (s : JSString) : JSString :=
  match s with
  | [] => []
  | c :: s' =>
      match s' with
      | d :: s'' =>
          if isLeadingSurrogate c && isTrailingSurrogate d
          then c :: d :: quote_units s''
          else escape_unit c ++ quote_units s'
      | [] => escape_unit c
      end
  end.

Definition QuoteJSONString (s : JSString) : JSString := quoted (quote_units s).

Definition gap : JSString := lit "  ".

(** SerializeJSONProperty with the indentation reached so far; [None]
    is the undefined it answers for an undefined value.  Inside an
    array undefined prints as null, inside an object its property is
    left out.  No value of this type is callable, so toJSON never
    applies. *)
Fixpoint SerializeJSONProperty (indent : JSString) (v : JSValue)
  : option JSString :=
  match v with
  | JUndefined => None
  | JNull => Some (lit "null")
  | JBool true => Some (lit "true")
  | JBool false => Some (lit "false")
  | JNumber n =>
      Some (if Number_isFinite n then Number_toString n else lit "null")
  | JString s => Some (QuoteJSONString s)
  | JArray items =>
      let stepback := indent in
      let indent := indent ++ gap in
      match items with
      | [] => Some (lit "[]")
      | _ :: _ =>
          let partial :=
            map (fun x =>
                   match SerializeJSONProperty indent x with
                   | Some str => str
                   | None => lit "null"
                   end) items in
          let separator := lit "," ++ LF ++ indent in
          Some (lit "[" ++ LF ++ indent ++ join separator partial
                ++ LF ++ stepback ++ lit "]")
      end
  | JObject props =>
      let stepback := indent in
      let indent := indent ++ gap in
      let partial :=
        flat_map (fun kx =>
                    match SerializeJSONProperty indent (snd kx) with
                    | Some str =>
                        [QuoteJSONString (fst kx) ++ lit ":" ++ lit " " ++ str]
                    | None => []
                    end) props in
      match partial with
      | [] => Some (lit "{}")
      | _ :: _ =>
          let separator := lit "," ++ LF ++ indent in
          Some (lit "{" ++ LF ++ indent ++ join separator partial
                ++ LF ++ stepback ++ lit "}")
      end
  end.

(** [JSON.stringify(v, null, 2)]: a string, or undefined. *)
Definition stringify (v : JSValue) : JSValue :=
  match SerializeJSONProperty [] v with
  | Some str => JString str
  | None => JUndefined
  end.

(** *** JSON.parse: the tokens of a JSON text *)

Inductive Token :=
| TLeftBrace | TRightBrace | TLeftBracket | TRightBracket
| TColon | TComma
| TString (s : JSString)
| TNumber (lexeme : JSString)
| TTrue | TFalse | TNull.

(** How far a number literal has been read. *)
Inductive NumberPart :=
| NMinus | NZero | NInteger | NPoint | NFraction
| NExponent | NExponentSign | NExponentDigits.

Definition number_complete (p : NumberPart) : bool :=
  match p with
  | NZero | NInteger | NFraction | NExponentDigits => true
  | NMinus | NPoint | NExponent | NExponentSign => false
  end.

(** The part reached after one more character, if the literal goes on. *)
Definition number_next (p : NumberPart) (c : code_unit) : option NumberPart :=
  let e := (c =? 101) || (c =? 69) in
  match p with
  | NMinus =>
      if c =? 48 then Some NZero
      else if isDigit c then Some NInteger else None
  | NZero =>
      if c =? 46 then Some NPoint else if e then Some NExponent else None
  | NInteger =>
      if isDigit c then Some NInteger
      else if c =? 46 then Some NPoint
      else if e then Some NExponent else None
  | NPoint => if isDigit c then Some NFraction else None
  | NFraction =>
      if isDigit c then Some NFraction
      else if e then Some NExponent else None
  | NExponent =>
      if (c =? 43) || (c =? 45) then Some NExponentSign
      else if isDigit c then Some NExponentDigits else None
  | NExponentSign => if isDigit c then Some NExponentDigits else None
  | NExponentDigits => if isDigit c then Some NExponentDigits else None
  end.

Definition hex_value (c : code_unit) : option N :=
  if isDigit c then Some (c - 48)
  else if (97 <=? c) && (c <=? 102) then Some (c - 87)
  else if (65 <=? c) && (c <=? 70) then Some (c - 55)
  else None.

(** The scanner reads one code unit at a time.  Accumulated text is
    kept in reverse. *)
Inductive LexMode :=
| LBetween
| LInString (acc : JSString)
| LEscape (acc : JSString)
| LUnicode (acc : JSString) (read : nat) (value : N)
| LInNumber (part : NumberPart) (acc : JSString)
| LKeyword (rest : JSString) (tok : Token)
| LError.

Record LexState := { mode : LexMode; emitted : list Token }.

Definition emit (t : Token) (st : LexState) : LexState :=
  {| mode := LBetween; emitted := t :: emitted st |}.

Definition enter (m : LexMode) (st : LexState) : LexState :=
  {| mode := m; emitted := emitted st |}.

(** A character met between two tokens.  JSON white space is tab, line
    feed, carriage return and space. *)
Definition lex_between (c : code_unit) (st : LexState) : LexState :=
  if (c =? 9) || (c =? 10) || (c =? 13) || (c =? 32) then enter LBetween st
  else if c =? 123 then emit TLeftBrace st
  else if c =? 125 then emit TRightBrace st
  else if c =? 91 then emit TLeftBracket st
  else if c =? 93 then emit TRightBracket st
  else if c =? 58 then emit TColon st
  else if c =? 44 then emit TComma st
  else if c =? 34 then enter (LInString []) st
  else if c =? 45 then enter (LInNumber NMinus [c]) st
  else if c =? 48 then enter (LInNumber NZero [c]) st
  else if isDigit c then enter (LInNumber NInteger [c]) st
  else if c =? 116 then enter (LKeyword (lit "rue") TTrue) st
  else if c =? 102 then enter (LKeyword (lit "alse") TFalse) st
  else if c =? 110 then enter (LKeyword (lit "ull") TNull) st
  else enter LError st.

Definition lex_step (st : LexState) (c : code_unit) : LexState :=
  match mode st with
  | LBetween => lex_between c st
  | LInString acc =>
      if c =? 34 then emit (TString (rev acc)) st
      else if c =? 92 then enter (LEscape acc) st
      else if c <? 32 then enter LError st
      else enter (LInString (c :: acc)) st
  | LEscape acc =>
      if c =? 34 then enter (LInString (34 :: acc)) st
      else if c =? 92 then enter (LInString (92 :: acc)) st
      else if c =? 47 then enter (LInString (47 :: acc)) st
      else if c =? 98 then enter (LInString (8 :: acc)) st
      else if c =? 102 then enter (LInString (12 :: acc)) st
      else if c =? 110 then enter (LInString (10 :: acc)) st
      else if c =? 114 then enter (LInString (13 :: acc)) st
      else if c =? 116 then enter (LInString (9 :: acc)) st
      else if c =? 117 then enter (LUnicode acc 0 0) st
      else enter LError st
  | LUnicode acc read value =>
      match hex_value c with
      | Some h =>
          let value := 16 * value + h in
          match read with
          | 3%nat => enter (LInString (value :: acc)) st
          | _ => enter (LUnicode acc (S read) value) st
          end
      | None => enter LError st
      end
  | LInNumber part acc =>
      match number_next part c with
      | Some part' => enter (LInNumber part' (c :: acc)) st
      | None =>
          if number_complete part
          then lex_between c (emit (TNumber (rev acc)) st)
          else enter LError st
      end
  | LKeyword rest tok =>
      match rest with
      | r :: rest' =>
          if c =? r then
            match rest' with
            | [] => emit tok st
            | _ :: _ => enter (LKeyword rest' tok) st
            end
          else enter LError st
      | [] => enter LError st
      end
  | LError => st
  end.

(** The tokens of a whole text, or nothing when it is not made of JSON
    tokens. *)
Definition tokens (text : JSString) : option (list Token) :=
  let st := fold_left lex_step text {| mode := LBetween; emitted := [] |} in
  match mode st with
  | LBetween => Some (rev (emitted st))
  | LInNumber part acc =>
      if number_complete part
      then Some (rev (TNumber (rev acc) :: emitted st))
      else None
  | _ => None
  end.

(** *** JSON.parse: the grammar, as a pushdown automaton over tokens *)

(** A container that waits for the value being read: an array with the
    elements before it (in reverse), or an object with the properties
    before it and the key of the value. *)
Inductive Frame :=
| InArray (before : list JSValue)
| InObject (props : list (JSString * JSValue)) (key : JSString).

Inductive ParseState :=
| PValue (stack : list Frame)
| PArrayOpen (stack : list Frame)
| PObjectOpen (stack : list Frame)
| PKey (props : list (JSString * JSValue)) (stack : list Frame)
| PColon (props : list (JSString * JSValue)) (key : JSString)
    (stack : list Frame)
| PAfterElement (before : list JSValue) (stack : list Frame)
| PAfterMember (props : list (JSString * JSValue)) (stack : list Frame)
| PDone (v : JSValue)
| PFailed.

(** A value is complete: it goes to the container that waits for it. *)
Definition finish (v : JSValue) (stack : list Frame) : ParseState :=
  match stack with
  | [] => PDone v
  | InArray before :: stack' => PAfterElement (v :: before) stack'
  | InObject props key :: stack' =>
      PAfterMember (CreateDataProperty props key v) stack'
  end.

(** A token where a value must start. *)
Definition parse_value (t : Token) (stack : list Frame) : ParseState :=
  match t with
  | TString s => finish (JString s) stack
  | TNumber lexeme => finish (JNumber (StringToNumber lexeme)) stack
  | TTrue => finish (JBool true) stack
  | TFalse => finish (JBool false) stack
  | TNull => finish JNull stack
  | TLeftBracket => PArrayOpen stack
  | TLeftBrace => PObjectOpen stack
  | TRightBrace | TRightBracket | TColon | TComma => PFailed
  end.

Definition parse_step (st : ParseState) (t : Token) : ParseState :=
  match st with
  | PValue stack => parse_value t stack
  | PArrayOpen stack =>
      match t with
      | TRightBracket => finish (JArray []) stack
      | _ => parse_value t (InArray [] :: stack)
      end
  | PObjectOpen stack =>
      match t with
      | TRightBrace => finish (JObject []) stack
      | TString key => PColon [] key stack
      | _ => PFailed
      end
  | PKey props stack =>
      match t with
      | TString key => PColon props key stack
      | _ => PFailed
      end
  | PColon props key stack =>
      match t with
      | TColon => PValue (InObject props key :: stack)
      | _ => PFailed
      end
  | PAfterElement before stack =>
      match t with
      | TComma => PValue (InArray before :: stack)
      | TRightBracket => finish (JArray (rev before)) stack
      | _ => PFailed
      end
  | PAfterMember props stack =>
      match t with
      | TComma => PKey props stack
      | TRightBrace => finish (JObject props) stack
      | _ => PFailed
      end
  | PDone _ => PFailed
  | PFailed => PFailed
  end.

(** [JSON.parse(text)] without a reviver: the value, or a SyntaxError. *)
Definition parse (text : JSString) : Completion JSValue :=
  match tokens text with
  | None => inl SyntaxError
  | Some ts =>
      match fold_left parse_step ts (PValue []) with
      | PDone v => inr v
      | _ => inl SyntaxError
      end
  end.

End Json.

End JSON.

(** ** Integers as numbers

    Doubles represent every integer of magnitude below 2^53 exactly,
    and print those in plain decimal.  This instance implements the
    number interface on integers: it reads the integer part of a
    literal and ignores a fraction or an exponent, so it agrees with
    the runtime on literals made of an optional minus sign and digits
    that stay below 2^53.  The examples are evaluated with it. *)
Module IntegerNumbers.
Import JS JSON.

Fixpoint digits_fuel (fuel : nat) (n : N) (acc : JSString) : JSString :=
  match fuel with
  | O => acc
  | S fuel' =>
      let acc' := (48 + n mod 10) :: acc in
      if n <? 10 then acc' else digits_fuel fuel' (n / 10) acc'
  end.

Definition decimal (n : N) : JSString := digits_fuel (S (N.to_nat (N.log2 n))) n [].

Fixpoint leading_digits (s : JSString) : JSString :=
  match s with
  | c :: s' => if isDigit c then c :: leading_digits s' else []
  | [] => []
  end.

Definition read_integer (lexeme : JSString) : Z :=
  match lexeme with
  | 45 :: s => Z.opp (Z.of_N (decimal_value 0 (leading_digits s)))
  | _ => Z.of_N (decimal_value 0 (leading_digits lexeme))
  end.

Definition print_integer (z : Z) : JSString :=
  match z with
  | Z0 => decimal 0
  | Zpos p => decimal (Npos p)
  | Zneg p => 45 :: decimal (Npos p)
  end.

#[export] Instance IntegerFloat64 : Float64 Z := {|
  StringToNumber := read_integer;
  Number_toString := print_integer;
  Number_isFinite := fun _ => true;
  Number_toBoolean := fun z => negb (Z.eqb z 0)
|}.

End IntegerNumbers.

(** ** Effects: the model client, the console and the response *)

Module Node.
Import JS.

(** The one operation of the external collaborator: a prompt goes out,
    a completion text comes back or the call fails.  It stands for
    [await model.generateContent(prompt)] followed by
    [.response.text()] on its result; either can throw.  A client has
    a state of its own, so that its answer may depend on every call
    made before. *)
Record ModelClient := {
  ClientState : Type;
  generateContent :
    JSString -> ClientState -> Completion JSString * ClientState
}.

(** One outbound call: what was sent and how it ended. *)
Record Call := { prompt : JSString; outcome : Completion JSString }.

Inductive LogEntry :=
| LogString (s : JSString)
| LogError (err : JSError)
| LogErrorMessage (err : JSError).

Section Effects.
Context {num : Type} {M : ModelClient}.

(** [res.status(code).json(body)] *)
Record Response := { status : N; body : JSValue num }.

Record World := {
  model : ClientState M;
  (** the calls made to the model client, oldest first *)
  calls : list Call;
  console : list LogEntry;
  (** the responses written to [res], oldest first *)
  sent : list Response
}.

(** The world of a process that has served nothing yet. *)
Definition fresh (m : ClientState M) : World :=
  {| model := m; calls := []; console := []; sent := [] |}.

(** An asynchronous function body: it changes the world and completes
    with a value or throws.  What was done before a throw stays done. *)
Definition Async (A : Type) : Type := World -> Completion A * World.

Definition bind {A B} (m : Async A) (k : A -> Async B) : Async B :=
  fun w =>
    match m w with
    | (inr a, w') => k a w'
    | (inl e, w') => (inl e, w')
    end.

(** A pure step that may throw. *)
Definition completion {A} (c : Completion A) : Async A := fun w => (c, w).

Definition try_catch {A} (m : Async A) (handler : JSError -> Async A)
  : Async A :=
  fun w =>
    match m w with
    | (inr a, w') => (inr a, w')
    | (inl e, w') => handler e w'
    end.

(** [(await model.generateContent(prompt)).response.text()] *)
Definition model_generateContent (request : JSString) : Async JSString :=
  fun w =>
    let (result, m') := generateContent M request (model w) in
    (result,
     {| model := m';
        calls := calls w ++ [{| prompt := request; outcome := result |}];
        console := console w; sent := sent w |}).

Definition console_log (entry : LogEntry) : Async unit :=
  fun w =>
    (inr tt,
     {| model := model w; calls := calls w;
        console := console w ++ [entry]; sent := sent w |}).

Definition res_status_json (code : N) (payload : JSValue num) : Async unit :=
  fun w =>
    (inr tt,
     {| model := model w; calls := calls w; console := console w;
        sent := sent w ++ [{| status := code; body := payload |}] |}).

(** [const { message, previousCode } = req.body]: a TypeError when the
    body is undefined or null. *)
Definition destructure_body (req_body : JSValue num)
  : Completion (JSValue num * JSValue num) :=
  match req_body with
  | JUndefined | JNull => inl TypeError
  | _ => inr (GetV req_body (lit "message"),
              GetV req_body (lit "previousCode"))
  end.

Definition message_required : JSValue num :=
  JObject [(lit "message", JString (lit "Input message required"))].

Definition internal_server_error : JSValue num :=
  JObject [(lit "message", JString (lit "Internal server error"))].

(** The catch block of both handlers. *)
Definition catch_block (err : JSError) : Async unit :=
  bind (console_log (LogError err)) (fun _ =>
  bind (console_log (LogErrorMessage err)) (fun _ =>
  res_status_json 500 internal_server_error)).

End Effects.

Arguments Response : clear implicits.
Arguments World : clear implicits.
Arguments Async : clear implicits.

Declare Scope async_scope.
Delimit Scope async_scope with async.
Notation "x <- m ;; k" := (bind m (fun x => k))
  (at level 61, m at next level, right associativity) : async_scope.
Notation "m ;;; k" := (bind m (fun _ => k))
  (at level 61, right associativity) : async_scope.

End Node.

(** ** The handler of POST /generate *)

Module Server.
Import JS Node.

(** *** The prompt templates *)

Definition planner_role : JSString :=
  lit "
You are a deterministic UI planner.

Your job is to analyze the user request and return a structured JSON plan.

".

Definition planner_components : JSString :=
  lit "ALLOWED COMPONENTS AND REQUIRED PROPS

1) Sidebar
   Required props:
   - header: string
   - items: array of { label: string }

2) Card
   Required props:
   - title: string
   - content: string
   - description: string

3) Button
   Required props:
   - label: string

4) Input
   Required props:
   - placeholder: string

5) Navbar
   Required props:
   - title: string

6) Modal
   Required props:
   - title: string

7) Chart
   Required props:
   - title: string

".

Definition planner_rules : JSString :=
  lit "PLANNING RULES

- Use ONLY the allowed components listed above.
- Every component MUST include all required props.
- Do NOT leave props empty.
- If previous UI exists, modify it instead of rewriting completely.
- Preserve existing components unless explicitly removed.
- Be minimal and structured.

".

Definition planner_output_format : JSString :=
  lit "OUTPUT FORMAT (STRICT JSON ONLY)

{
  "
  ++ quoted (lit "type")
  ++ lit ": "
  ++ quoted (lit "create")
  ++ lit " OR "
  ++ quoted (lit "modify")
  ++ lit ",
  "
  ++ quoted (lit "components")
  ++ lit ": [
    {
      "
  ++ quoted (lit "name")
  ++ lit ": "
  ++ quoted (lit "ComponentName")
  ++ lit ",
      "
  ++ quoted (lit "props")
  ++ lit ": {
        // required props here
      }
    }
  ]
}

- Return ONLY valid JSON.
- Do NOT include explanation.
- Do NOT include code.
- Do NOT wrap in markdown.
- Do NOT include extra text.

".

Definition planner_request : JSString :=
  lit "USER REQUEST:
".

Definition generator_role : JSString :=
  lit "
You are a deterministic React UI code generator.

Your job is to convert a structured UI plan into valid JSX.

".

Definition generator_components : JSString :=
  lit "ALLOWED COMPONENTS AND PROPS

1) Sidebar
   Props:
   - header: string
   - items: array of { label: string }

2) Card
   Props:
   - title: string
   - content: string
   - description: string

3) Button
   Props:
   - label: string

4) Input
   Props:
   - placeholder: string

5) Navbar
   Props:
   - title: string

6) Modal
   Props:
   - title: string

7) Chart
   Props:
   - title: string

".

Definition generator_rules : JSString :=
  lit "STRICT RULES (MUST FOLLOW)

- If plan.type is "
  ++ quoted (lit "modify")
  ++ lit ":
  - Preserve existing components unless explicitly removed.
  - Only add, update, or remove what is necessary.
  - Do NOT rewrite everything.
- If plan.type is "
  ++ quoted (lit "create")
  ++ lit ":
  - Build full UI from scratch.

- Use ONLY the components listed above.
- Use ONLY the props defined above.
- Do NOT invent new props.
- Do NOT use div.
- Do NOT use className.
- Do NOT use inline styles.
- Do NOT import anything.
- Do NOT add comments.
- Do NOT wrap output in markdown.
- Return ONLY pure JSX.
- Return a single React fragment (<>...</>).
- Do not explain anything.

".

Definition generator_plan : JSString :=
  lit "PLAN:
".

(** The end of the planner and generator templates. *)
Definition previous_ui_heading : JSString :=
  lit "

PREVIOUS UI:
".

Definition explainer_request : JSString :=
  lit "
        explain in plan english why these components were selected.

        plan: ".

Definition explainer_end : JSString :=
  lit "
        ".

Definition ALLOWED_COMPONENTS : list JSString :=
  [lit "Button"; lit "Card"; lit "Input"; lit "Sidebar"; lit "Navbar";
   lit "Modal"; lit "Chart"].

Section Handler.
Context {num : Type} {F64 : Float64 num} {M : ModelClient}.

#[local] Abbreviation JSValue := (JSValue num).

(** [previousCode || "None"] *)
Definition previous_ui (previousCode : JSValue) : JSValue :=
  logical_or previousCode (JString (lit "None")).

(** A template literal converts its substitutions from left to right;
    the first conversion that throws ends the evaluation. *)
Definition plannerPrompt (message previousCode : JSValue)
  : Completion JSString :=
  match ToString message with
  | inl e => inl e
  | inr request =>
      match ToString (previous_ui previousCode) with
      | inl e => inl e
      | inr previous =>
          inr (planner_role ++ planner_components ++ planner_rules
               ++ planner_output_format ++ planner_request
               ++ quoted request ++ previous_ui_heading ++ previous ++ LF)
      end
  end.

Definition generatorPrompt (plan previousCode : JSValue)
  : Completion JSString :=
  match ToString (JSON.stringify plan) with
  | inl e => inl e
  | inr serialized =>
      match ToString (previous_ui previousCode) with
      | inl e => inl e
      | inr previous =>
          inr (generator_role ++ generator_components ++ generator_rules
               ++ generator_plan ++ serialized
               ++ previous_ui_heading ++ previous ++ LF)
      end
  end.

Definition explainerPrompt (plan : JSValue) : Completion JSString :=
  match ToString (JSON.stringify plan) with
  | inl e => inl e
  | inr serialized => inr (explainer_request ++ serialized ++ explainer_end)
  end.

(** [{ plan, code, explanation }] *)
Definition generation_result (plan : JSValue) (code explanation : JSString)
  : JSValue :=
  JObject [(lit "plan", plan); (lit "code", JString code);
           (lit "explanation", JString explanation)].

(** The body of the handler after the guard on [message]. *)
Definition pipeline (message previousCode : JSValue) : Async num M unit :=
  ((* planner *)
   request <- completion (plannerPrompt message previousCode) ;;
   text <- model_generateContent request ;;
   let raw := trim text in
   console_log (LogString raw) ;;;
   plan <- completion (JSON.parse raw) ;;
   (* code generator *)
   request <- completion (generatorPrompt plan previousCode) ;;
   code <- model_generateContent request ;;
   (* explainer *)
   request <- completion (explainerPrompt plan) ;;
   explanation <- model_generateContent request ;;
   res_status_json 200 (generation_result plan code explanation))%async.

(** The handler, given [req.body]. *)
Definition post_generate (req_body : JSValue) : Async num M unit :=
  try_catch
    (fields <- completion (destructure_body req_body) ;;
     let message := fst fields in
     let previousCode := snd fields in
     if negb (ToBoolean message) then
       res_status_json 400 message_required
     else
       pipeline message previousCode)%async
    catch_block.

End Handler.

End Server.

(** ** The handler of index.js

    The file index.js holds the same route with shorter templates: the
    planner text goes into the later prompts as it came, nothing is
    parsed, and the answer carries the code and the explanation. *)

Module IndexJs.
Import JS Node.

Definition planner_opening : JSString :=
  lit "
        you are a UI planner.

        allowed components:".

Definition planner_user_request : JSString :=
  lit "

        user request: ".

Definition planner_if_previous : JSString :=
  lit "

        if previous UI exists:
        ".

Definition planner_closing : JSString :=
  lit "

        return structured JSON plan.
        do not generate code.
        ".

Definition generator_opening : JSString :=
  lit "
        you are a UI code generator.

        allowed components: ".

Definition generator_plan_label : JSString :=
  lit "

        plan: ".

Definition generator_closing : JSString :=
  lit "

        rules:
        - use only allowed components
        - no inline styles
        - no className
        - return only JSX
        ".

Definition explainer_opening : JSString :=
  lit "
        explain in plan english why these components were selected.

        plan: ".

Definition explainer_closing : JSString :=
  lit "
        ".

Section Handler.
Context {num : Type} {F64 : Float64 num} {M : ModelClient}.

#[local] Abbreviation JSValue := (JSValue num).

(** [ALLOWED_COMPONENTS.join(",")] *)
Definition allowed_components : JSString :=
  join (lit ",") Server.ALLOWED_COMPONENTS.

Definition plannerPrompt (message previousCode : JSValue)
  : Completion JSString :=
  match ToString message with
  | inl e => inl e
  | inr request =>
      match
        ToString (logical_or previousCode (JString (lit "no previous UI")))
      with
      | inl e => inl e
      | inr previous =>
          inr (planner_opening ++ allowed_components
               ++ planner_user_request ++ quoted request
               ++ planner_if_previous ++ previous ++ planner_closing)
      end
  end.

Definition generatorPrompt (planText : JSString) : JSString :=
  generator_opening ++ allowed_components ++ generator_plan_label
  ++ planText ++ generator_closing.

Definition explainerPrompt (planText : JSString) : JSString :=
  explainer_opening ++ planText ++ explainer_closing.

(** [{ code, explanation }] *)
Definition code_and_explanation (code explanation : JSString) : JSValue :=
  JObject [(lit "code", JString code);
           (lit "explanation", JString explanation)].

Definition post_generate (req_body : JSValue) : Async num M unit :=
  try_catch
    (fields <- completion (destructure_body req_body) ;;
     let message := fst fields in
     let previousCode := snd fields in
     if negb (ToBoolean message) then
       res_status_json 400 message_required
     else
       (* planner *)
       request <- completion (plannerPrompt message previousCode) ;;
       planText <- model_generateContent request ;;
       (* code generator *)
       code <- model_generateContent (generatorPrompt planText) ;;
       (* explainer *)
       explanation <- model_generateContent (explainerPrompt planText) ;;
       res_status_json 200 (code_and_explanation code explanation))%async
    catch_block.

End Handler.

End IndexJs.

(** ** The executions of the handler

    Every way through the handler of [POST /generate], as a relation
    between the world before and the world after.

    A run is one request on its own: the world passes unchanged from
    one await to the next.  The calls that other requests in flight
    make on the shared client between two awaits are not part of it. *)

Module Execution.
Import JS Node Server.

Section Runs.
Context {num : Type} {F64 : Float64 num} {M : ModelClient}.

#[local] Abbreviation JSValue := (JSValue num).
#[local] Abbreviation World := (World num M).

(** The world after a request that left the client in state [m'],
    made the calls [made], logged [logged] and answered [answer]. *)
Definition after (w : World) (m' : ClientState M) (made : list Call)
  (logged : list LogEntry) (answer : Response num) : World :=
  {| model := m'; calls := calls w ++ made;
     console := console w ++ logged; sent := sent w ++ [answer] |}.

(** The world in the middle of a request: nothing is answered yet. *)
Definition during (w : World) (m' : ClientState M) (made : list Call)
  (logged : list LogEntry) : World :=
  {| model := m'; calls := calls w ++ made;
     console := console w ++ logged; sent := sent w |}.

Definition rejection : Response num :=
  {| status := 400; body := message_required |}.

Definition failure : Response num :=
  {| status := 500; body := internal_server_error |}.

Definition success (plan : JSValue) (code explanation : JSString)
  : Response num :=
  {| status := 200; body := generation_result plan code explanation |}.

Definition caught (err : JSError) : list LogEntry :=
  [LogError err; LogErrorMessage err].

Definition call (request : JSString) (result : Completion JSString) : Call :=
  {| prompt := request; outcome := result |}.

(** The runs of the pipeline behind the guard. *)
Inductive Pipeline (message previousCode : JSValue) (w : World)
  : World -> Prop :=
| PlannerPromptThrows e :
    plannerPrompt message previousCode = inl e ->
    Pipeline message previousCode w (after w (model w) [] (caught e) failure)
| PlannerCallFails p1 e m1 :
    plannerPrompt message previousCode = inr p1 ->
    generateContent M p1 (model w) = (inl e, m1) ->
    Pipeline message previousCode w
      (after w m1 [call p1 (inl e)] (caught e) failure)
| PlanMalformed p1 t1 m1 e :
    plannerPrompt message previousCode = inr p1 ->
    generateContent M p1 (model w) = (inr t1, m1) ->
    JSON.parse (trim t1) = inl e ->
    Pipeline message previousCode w
      (after w m1 [call p1 (inr t1)] (LogString (trim t1) :: caught e)
         failure)
| GeneratorCallFails p1 t1 m1 plan p2 e m2 :
    plannerPrompt message previousCode = inr p1 ->
    generateContent M p1 (model w) = (inr t1, m1) ->
    JSON.parse (trim t1) = inr plan ->
    generatorPrompt plan previousCode = inr p2 ->
    generateContent M p2 m1 = (inl e, m2) ->
    Pipeline message previousCode w
      (after w m2 [call p1 (inr t1); call p2 (inl e)]
         (LogString (trim t1) :: caught e) failure)
| ExplainerCallFails p1 t1 m1 plan p2 t2 m2 p3 e m3 :
    plannerPrompt message previousCode = inr p1 ->
    generateContent M p1 (model w) = (inr t1, m1) ->
    JSON.parse (trim t1) = inr plan ->
    generatorPrompt plan previousCode = inr p2 ->
    generateContent M p2 m1 = (inr t2, m2) ->
    explainerPrompt plan = inr p3 ->
    generateContent M p3 m2 = (inl e, m3) ->
    Pipeline message previousCode w
      (after w m3 [call p1 (inr t1); call p2 (inr t2); call p3 (inl e)]
         (LogString (trim t1) :: caught e) failure)
| Completed p1 t1 m1 plan p2 t2 m2 p3 t3 m3 :
    plannerPrompt message previousCode = inr p1 ->
    generateContent M p1 (model w) = (inr t1, m1) ->
    JSON.parse (trim t1) = inr plan ->
    generatorPrompt plan previousCode = inr p2 ->
    generateContent M p2 m1 = (inr t2, m2) ->
    explainerPrompt plan = inr p3 ->
    generateContent M p3 m2 = (inr t3, m3) ->
    Pipeline message previousCode w
      (after w m3 [call p1 (inr t1); call p2 (inr t2); call p3 (inr t3)]
         [LogString (trim t1)] (success plan t2 t3)).

(** The runs of the handler. *)
Inductive Handled (req_body : JSValue) (w : World) : World -> Prop :=
| NoBody e :
    destructure_body req_body = inl e ->
    Handled req_body w (after w (model w) [] (caught e) failure)
| Rejected message previousCode :
    destructure_body req_body = inr (message, previousCode) ->
    ToBoolean message = false ->
    Handled req_body w (after w (model w) [] [] rejection)
| Accepted message previousCode w' :
    destructure_body req_body = inr (message, previousCode) ->
    ToBoolean message = true ->
    Pipeline message previousCode w w' ->
    Handled req_body w w'.

(** The text a template holds for [JSON.stringify(plan, null, 2)]. *)
Definition serialized_plan (plan : JSValue) : JSString :=
  match JSON.stringify plan with
  | JString text => text
  | _ => lit "undefined"
  end.

(** The world the handler leaves. *)
Definition handle (req_body : JSValue) (w : World) : World :=
  snd (post_generate req_body w).

(** The calls and the answers a request added. *)
Definition new_calls (req_body : JSValue) (w : World) : list Call :=
  skipn (List.length (calls w)) (calls (handle req_body w)).

End Runs.

End Execution.

(** ** The contract of the specification on a plan *)

Module Contract.
Import JS Node Server.

Section Plans.
Context {num : Type} {F64 : Float64 num}.

#[local] Abbreviation JSValue := (JSValue num).

(** The required props of each component, as both templates list
    them. *)
Definition required_props (name : JSString) : list JSString :=
  if str_eqb name (lit "Sidebar") then [lit "header"; lit "items"]
  else if str_eqb name (lit "Card")
       then [lit "title"; lit "content"; lit "description"]
  else if str_eqb name (lit "Button") then [lit "label"]
  else if str_eqb name (lit "Input") then [lit "placeholder"]
  else if str_eqb name (lit "Navbar") then [lit "title"]
  else if str_eqb name (lit "Modal") then [lit "title"]
  else if str_eqb name (lit "Chart") then [lit "title"]
  else [].

Definition in_vocabulary (name : JSString) : bool :=
  existsb (str_eqb name) ALLOWED_COMPONENTS.

Definition present_and_non_empty (v : JSValue) : bool :=
  match v with
  | JUndefined | JNull => false
  | JString s => match s with [] => false | _ :: _ => true end
  | JArray items => match items with [] => false | _ :: _ => true end
  | JBool _ | JNumber _ | JObject _ => true
  end.

(** A component names one of the seven components and gives each
    of its required props a value. *)
Definition valid_component (component : JSValue) : bool :=
  match GetV component (lit "name") with
  | JString name =>
      in_vocabulary name
      && forallb
           (fun prop =>
              present_and_non_empty
                (GetV (GetV component (lit "props")) prop))
           (required_props name)
  | _ => false
  end.

Definition valid_plan (plan : JSValue) : bool :=
  match GetV plan (lit "components") with
  | JArray components => forallb valid_component components
  | _ => false
  end.

End Plans.


End Contract.

(** ** Stub clients and sample requests *)

Module Stubs.
Import JS Node IntegerNumbers.

(** A client that answers from a script, one entry per call, whatever
    the prompt; it fails once the script is used up. *)
Definition scripted : ModelClient := {|
  ClientState := list (Completion JSString);
  generateContent := fun _ script =>
    match script with
    | [] => (inl (ClientError (lit "no answer left")), [])
    | answer :: script' => (answer, script')
    end
|}.

Definition started (script : list (Completion JSString)) : World Z scripted :=
  fresh (M := scripted) script.

(** [{ "message": text }] *)
Definition request (text : JSString) : JSValue Z :=
  JObject [(lit "message", JString text)].

(** [{ "message": text, "previousCode": previous }] *)
Definition request_with (message previous : JSValue Z) : JSValue Z :=
  JObject [(lit "message", message); (lit "previousCode", previous)].

Definition dashboard_request : JSValue Z :=
  request (lit "Create a dashboard with user stats").

(** [{"type":"create","components":[{"name":"Navbar","props":{"title":"Dashboard"}}]}] *)
Definition navbar_plan_text : JSString :=
  lit "{" ++ quoted (lit "type") ++ lit ":" ++ quoted (lit "create")
  ++ lit "," ++ quoted (lit "components") ++ lit ":[{"
  ++ quoted (lit "name") ++ lit ":" ++ quoted (lit "Navbar") ++ lit ","
  ++ quoted (lit "props") ++ lit ":{" ++ quoted (lit "title") ++ lit ":"
  ++ quoted (lit "Dashboard") ++ lit "}}]}".

Definition navbar_plan : JSValue Z :=
  JObject
    [(lit "type", JString (lit "create"));
     (lit "components",
      JArray
        [JObject
           [(lit "name", JString (lit "Navbar"));
            (lit "props",
             JObject [(lit "title", JString (lit "Dashboard"))])]])].

(** [{"type":"create","components":[{"name":"Table","props":{}}]}]:
    a component outside the vocabulary. *)
Definition table_plan_text : JSString :=
  lit "{" ++ quoted (lit "type") ++ lit ":" ++ quoted (lit "create")
  ++ lit "," ++ quoted (lit "components") ++ lit ":[{"
  ++ quoted (lit "name") ++ lit ":" ++ quoted (lit "Table") ++ lit ","
  ++ quoted (lit "props") ++ lit ":{}}]}".

Definition table_plan : JSValue Z :=
  JObject
    [(lit "type", JString (lit "create"));
     (lit "components",
      JArray
        [JObject
           [(lit "name", JString (lit "Table"));
            (lit "props", JObject [])]])].

Definition fragment : JSString := lit "<><Navbar title=" ++ quoted (lit "Dashboard") ++ lit " /></>".
Definition prose : JSString := lit "A navigation bar shows the title of the dashboard.".

Definition unreachable : Completion JSString :=
  inl (ClientError (lit "fetch failed")).

(** A client without state that gives every prompt the same text. *)
Definition constant (text : JSString) : ModelClient := {|
  ClientState := unit;
  generateContent := fun _ st => (inr text, st)
|}.

(** The prompt of a template that was rendered. *)
Definition rendered (template : Completion JSString) : JSString :=
  match template with
  | inr text => text
  | inl _ => []
  end.

(** The scripts of the scenarios of the specification. *)
Definition all_good : list (Completion JSString) :=
  [inr navbar_plan_text; inr fragment; inr prose].

Definition not_json : list (Completion JSString) :=
  [inr (lit "not json"); inr fragment; inr prose].


Definition generator_down : list (Completion JSString) :=
  [inr navbar_plan_text; unreachable; inr prose].

Definition table_planned : list (Completion JSString) :=
  [inr table_plan_text; inr fragment; inr prose].

(** [{ "user": "u1", "message": "Create a dashboard with user stats" }] *)
Definition annotated_request : JSValue Z :=
  JObject [(lit "user", JString (lit "u1"));
           (lit "message", JString (lit "Create a dashboard with user stats"))].

(** [{ "toString": null }]: an object that cannot be converted to a
    string. *)
Definition unprintable : JSValue Z := JObject [(lit "toString", JNull)].

End Stubs.

(** ** What a request adds to the world *)

Module Locality.
Import JS Node Server Execution.

Section Extend.
Context {num : Type} {F64 : Float64 num} {M : ModelClient}.

#[local] Abbreviation JSValue := (JSValue num).
#[local] Abbreviation World := (World num M).

(** The console entries and the answers a request added. *)
Definition new_console (req_body : JSValue) (w : World) : list LogEntry :=
  skipn (List.length (console w)) (console (handle req_body w)).

Definition new_answers (req_body : JSValue) (w : World)
  : list (Response num) :=
  skipn (List.length (sent w)) (sent (handle req_body w)).

End Extend.

(** The characters a JSON text can start with, white space apart. *)
Definition starts_json_value (c : code_unit) : bool :=
  (c =? 123) || (c =? 91) || (c =? 34) || (c =? 45) || JSON.isDigit c
  || (c =? 116) || (c =? 102) || (c =? 110).

Definition isJSONWhiteSpace (c : code_unit) : bool :=
  (c =? 9) || (c =? 10) || (c =? 13) || (c =? 32).

End Locality.

(** ** The executions of the handler of index.js *)

Module IndexJsExecution.
Import JS Node Execution.

Section Runs.
Context {num : Type} {F64 : Float64 num} {M : ModelClient}.

#[local] Abbreviation JSValue := (JSValue num).
#[local] Abbreviation World := (World num M).

(** The world the handler of index.js leaves. *)
Definition index_handle (req_body : JSValue) (w : World) : World :=
  snd (IndexJs.post_generate req_body w).

Definition index_new_calls (req_body : JSValue) (w : World) : list Call :=
  skipn (List.length (calls w)) (calls (index_handle req_body w)).

Definition index_success (code explanation : JSString) : Response num :=
  {| status := 200; body := IndexJs.code_and_explanation code explanation |}.

(** Every way through the handler of index.js. *)
Inductive IndexHandled (req_body : JSValue) (w : World) : World -> Prop :=
| IxNoBody e :
    destructure_body req_body = inl e ->
    IndexHandled req_body w (after w (model w) [] (caught e) failure)
| IxRejected message previousCode :
    destructure_body req_body = inr (message, previousCode) ->
    ToBoolean message = false ->
    IndexHandled req_body w (after w (model w) [] [] rejection)
| IxPlannerPromptThrows message previousCode e :
    destructure_body req_body = inr (message, previousCode) ->
    ToBoolean message = true ->
    IndexJs.plannerPrompt message previousCode = inl e ->
    IndexHandled req_body w (after w (model w) [] (caught e) failure)
| IxPlannerCallFails message previousCode p1 e m1 :
    destructure_body req_body = inr (message, previousCode) ->
    ToBoolean message = true ->
    IndexJs.plannerPrompt message previousCode = inr p1 ->
    generateContent M p1 (model w) = (inl e, m1) ->
    IndexHandled req_body w
      (after w m1 [call p1 (inl e)] (caught e) failure)
| IxGeneratorCallFails message previousCode p1 planText m1 e m2 :
    destructure_body req_body = inr (message, previousCode) ->
    ToBoolean message = true ->
    IndexJs.plannerPrompt message previousCode = inr p1 ->
    generateContent M p1 (model w) = (inr planText, m1) ->
    generateContent M (IndexJs.generatorPrompt planText) m1 = (inl e, m2) ->
    IndexHandled req_body w
      (after w m2
         [call p1 (inr planText);
          call (IndexJs.generatorPrompt planText) (inl e)]
         (caught e) failure)
| IxExplainerCallFails message previousCode p1 planText m1 code m2 e m3 :
    destructure_body req_body = inr (message, previousCode) ->
    ToBoolean message = true ->
    IndexJs.plannerPrompt message previousCode = inr p1 ->
    generateContent M p1 (model w) = (inr planText, m1) ->
    generateContent M (IndexJs.generatorPrompt planText) m1 = (inr code, m2) ->
    generateContent M (IndexJs.explainerPrompt planText) m2 = (inl e, m3) ->
    IndexHandled req_body w
      (after w m3
         [call p1 (inr planText);
          call (IndexJs.generatorPrompt planText) (inr code);
          call (IndexJs.explainerPrompt planText) (inl e)]
         (caught e) failure)
| IxCompleted message previousCode p1 planText m1 code m2 explanation m3 :
    destructure_body req_body = inr (message, previousCode) ->
    ToBoolean message = true ->
    IndexJs.plannerPrompt message previousCode = inr p1 ->
    generateContent M p1 (model w) = (inr planText, m1) ->
    generateContent M (IndexJs.generatorPrompt planText) m1 = (inr code, m2) ->
    generateContent M (IndexJs.explainerPrompt planText) m2
    = (inr explanation, m3) ->
    IndexHandled req_body w
      (after w m3
         [call p1 (inr planText);
          call (IndexJs.generatorPrompt planText) (inr code);
          call (IndexJs.explainerPrompt planText) (inr explanation)]
         [] (index_success code explanation)).

End Runs.

End IndexJsExecution.

(** ** More planner texts for the scenarios *)

Module PlannerTexts.
Import JS Node IntegerNumbers Stubs.

(** A line feed, a no-break space and a byte order mark: white space
    for [trim], and the last two are none for [JSON.parse]. *)
Definition wide_space : JSString := [10; 160; 65279].

(** The planner answers with white space only. *)
Definition blank : list (Completion JSString) :=
  [inr (lit "  " ++ wide_space); inr fragment; inr prose].

(** The planner wraps its plan in a markdown fence. *)
Definition fenced_text : JSString :=
  lit "```json" ++ LF ++ navbar_plan_text ++ LF ++ lit "```".

Definition fenced : list (Completion JSString) :=
  [inr fenced_text; inr fragment; inr prose].

(** The planner puts a byte order mark before its plan and a line feed
    and a no-break space after it. *)
Definition padded_text : JSString :=
  [65279] ++ navbar_plan_text ++ [10; 160].

Definition padded : list (Completion JSString) :=
  [inr padded_text; inr fragment; inr prose].

End PlannerTexts.

(** ** The shape of the values JSON.parse makes *)

Module JSONShape.
Import JS JSON.

Section Shape.
Context {num : Type} {F64 : Float64 num}.

#[local] Abbreviation JSValue := (JSValue num).

(** *** Number literals *)

(** The part a number literal is in after its first character. *)
Definition number_start (c : code_unit) : option NumberPart :=
  if c =? 45 then Some NMinus
  else if c =? 48 then Some NZero
  else if isDigit c then Some NInteger
  else None.

Fixpoint number_run (p : NumberPart) (s : JSString) : option NumberPart :=
  match s with
  | [] => Some p
  | c :: r =>
      match number_next p c with
      | Some p' => number_run p' r
      | None => None
      end
  end.

(** The texts the scanner reads as one number. *)
Definition is_number_literal (s : JSString) : bool :=
  match s with
  | [] => false
  | c :: r =>
      match number_start c with
      | Some p =>
          match number_run p r with
          | Some p' => number_complete p'
          | None => false
          end
      | None => false
      end
  end.

(** *** The order of the keys of an object *)

Definition is_named (key : JSString) : bool :=
  match array_index key with
  | None => true
  | Some _ => false
  end.

(** Array indices first, each greater than the one before, then the
    other keys. *)
Fixpoint ascending (above : option N) (keys : list JSString) : bool :=
  match keys with
  | [] => true
  | key :: rest =>
      match array_index key with
      | Some i =>
          match above with
          | None => true
          | Some l => l <? i
          end && ascending (Some i) rest
      | None => forallb is_named rest
      end
  end.

Fixpoint distinct (keys : list JSString) : bool :=
  match keys with
  | [] => true
  | key :: rest => negb (existsb (str_eqb key) rest) && distinct rest
  end.

Definition enumeration_order (keys : list JSString) : bool :=
  ascending None keys && distinct keys.

(** *** Values *)

(** A value without undefined in it, whose objects list their keys in
    enumeration order, each key once. *)
Fixpoint well_formed (v : JSValue) : Prop :=
  match v with
  | JUndefined => False
  | JNull | JBool _ | JNumber _ | JString _ => True
  | JArray items =>
      (fix all (l : list JSValue) : Prop :=
         match l with
         | [] => True
         | x :: r => well_formed x /\ all r
         end) items
  | JObject props =>
      enumeration_order (map fst props) = true
      /\ (fix all (l : list (JSString * JSValue)) : Prop :=
            match l with
            | [] => True
            | kx :: r => well_formed (snd kx) /\ all r
            end) props
  end.

(** Every number of the value is finite, prints as a number literal
    and is read back from it. *)
Fixpoint numbers_read_back (v : JSValue) : Prop :=
  match v with
  | JNumber n =>
      Number_isFinite n = true
      /\ is_number_literal (Number_toString n) = true
      /\ StringToNumber (Number_toString n) = n
  | JUndefined | JNull | JBool _ | JString _ => True
  | JArray items =>
      (fix all (l : list JSValue) : Prop :=
         match l with
         | [] => True
         | x :: r => numbers_read_back x /\ all r
         end) items
  | JObject props =>
      (fix all (l : list (JSString * JSValue)) : Prop :=
         match l with
         | [] => True
         | kx :: r => numbers_read_back (snd kx) /\ all r
         end) props
  end.

(** The tokens of the text of a value. *)
Fixpoint value_tokens (v : JSValue) : list Token :=
  match v with
  | JUndefined => []
  | JNull => [TNull]
  | JBool true => [TTrue]
  | JBool false => [TFalse]
  | JNumber n => [TNumber (Number_toString n)]
  | JString s => [TString s]
  | JArray items =>
      TLeftBracket
      :: (fix elements (l : list JSValue) : list Token :=
            match l with
            | [] => [TRightBracket]
            | [x] => value_tokens x ++ [TRightBracket]
            | x :: r => value_tokens x ++ TComma :: elements r
            end) items
  | JObject props =>
      TLeftBrace
      :: (fix members (l : list (JSString * JSValue)) : list Token :=
            match l with
            | [] => [TRightBrace]
            | [kx] =>
                TString (fst kx) :: TColon :: value_tokens (snd kx)
                ++ [TRightBrace]
            | kx :: r =>
                TString (fst kx) :: TColon :: value_tokens (snd kx)
                ++ TComma :: members r
            end) props
  end.

End Shape.

End JSONShape.

(** ** What JSON.stringify writes and JSON.parse reads back

    The text of a value, the states of the scanner and of the automaton
    along it, and what the automaton holds while it builds a value. *)

Module JSONTexts.
Import JS JSON JSONShape IntegerNumbers.

(** The scanner in mode [m] with the tokens [E] behind it, the last one
    first. *)
Definition scanning (m : LexMode) (E : list Token) : LexState :=
  {| mode := m; emitted := E |}.

Section Texts.
Context {num : Type} {F64 : Float64 num}.

#[local] Abbreviation JSValue := (JSValue num).

(** The properties of an object, created one after the other. *)
Definition created (done todo : list (JSString * JSValue))
  : list (JSString * JSValue) :=
  fold_left (fun acc kx => CreateDataProperty acc (fst kx) (snd kx)) todo done.

(** The tokens after the opening bracket, and after the opening brace. *)
Definition element_tokens (items : list JSValue) : list Token :=
  tl (value_tokens (JArray items)).

Definition member_tokens (props : list (JSString * JSValue)) : list Token :=
  tl (value_tokens (JObject props)).

(** The automaton reads the tokens of a value as that value. *)
Definition parses (v : JSValue) : Prop :=
  forall stack ts,
    fold_left parse_step (value_tokens v ++ ts) (PValue stack)
    = fold_left parse_step ts (finish v stack).

(** The text of a value at an indentation; null for undefined, as
    inside an array. *)
Definition text_at (indent : JSString) (v : JSValue) : JSString :=
  match SerializeJSONProperty indent v with
  | Some str => str
  | None => lit "null"
  end.

Definition member_text (indent : JSString) (kx : JSString * JSValue)
  : JSString :=
  QuoteJSONString (fst kx) ++ lit ":" ++ lit " " ++ text_at indent (snd kx).

Definition separator (indent : JSString) : JSString :=
  lit "," ++ LF ++ indent.

(** What the scanner has when the text ends. *)
Definition scanned (st : LexState) : option (list Token) :=
  match mode st with
  | LBetween => Some (rev (emitted st))
  | LInNumber part acc =>
      if number_complete part
      then Some (rev (TNumber (rev acc) :: emitted st))
      else None
  | _ => None
  end.

(** A value is scanned to its tokens, before a comma or a line end and
    at the end of the text. *)
Definition scans (v : JSValue) : Prop :=
  forall indent E,
    forallb Locality.isJSONWhiteSpace indent = true ->
    (forall c rest,
       c = 44 \/ c = 10 ->
       fold_left lex_step (text_at indent v ++ c :: rest)
         (scanning LBetween E)
       = fold_left lex_step (c :: rest)
           (scanning LBetween (rev (value_tokens v) ++ E)))
    /\ scanned (fold_left lex_step (text_at indent v) (scanning LBetween E))
       = Some (rev (rev (value_tokens v) ++ E)).

(** What the automaton holds while it reads: well-formed values, and
    properties in enumeration order. *)
Definition built_props (props : list (JSString * JSValue)) : Prop :=
  enumeration_order (map fst props) = true
  /\ Forall (fun kx => well_formed (snd kx)) props.

Definition built_frame (f : Frame) : Prop :=
  match f with
  | InArray before => Forall (well_formed (num := num)) before
  | InObject props _ => built_props props
  end.

Definition built (st : ParseState) : Prop :=
  match st with
  | PValue stack | PArrayOpen stack | PObjectOpen stack =>
      Forall built_frame stack
  | PKey props stack | PColon props _ stack | PAfterMember props stack =>
      built_props props /\ Forall built_frame stack
  | PAfterElement before stack =>
      Forall (well_formed (num := num)) before /\ Forall built_frame stack
  | PDone v => well_formed v
  | PFailed => True
  end.

End Texts.

(** [{"0": -7, "1": [12, 0], "title": "a \"b\"\n", "shown": true, "axis": null}] *)
Definition chart_props : JSValue Z :=
  JObject
    [(lit "0", JNumber (-7)%Z);
     (lit "1", JArray [JNumber 12%Z; JNumber 0%Z]);
     (lit "title", JString (lit "a " ++ quoted (lit "b") ++ LF));
     (lit "shown", JBool true);
     (lit "axis", JNull)].

(** [{"type":"modify","components":[{"name":"Chart","props":{"title":"Sales","points":[3,-1,20]}}]}] *)
Definition chart_plan_text : JSString :=
  lit "{" ++ quoted (lit "type") ++ lit ":" ++ quoted (lit "modify")
  ++ lit "," ++ quoted (lit "components") ++ lit ":[{"
  ++ quoted (lit "name") ++ lit ":" ++ quoted (lit "Chart") ++ lit ","
  ++ quoted (lit "props") ++ lit ":{" ++ quoted (lit "title") ++ lit ":"
  ++ quoted (lit "Sales") ++ lit "," ++ quoted (lit "points")
  ++ lit ":[3,-1,20]}}]}".

Definition chart_plan : JSValue Z :=
  JObject
    [(lit "type", JString (lit "modify"));
     (lit "components",
      JArray
        [JObject
           [(lit "name", JString (lit "Chart"));
            (lit "props",
             JObject [(lit "title", JString (lit "Sales"));
                      (lit "points",
                       JArray [JNumber 3%Z; JNumber (-1)%Z;
                               JNumber 20%Z])])]])].

Definition chart_planned : list (Completion JSString) :=
  [inr chart_plan_text; inr Stubs.fragment; inr Stubs.prose].

End JSONTexts.

(** * Properties *)

(** ** Facts on strings and on the templates *)

Module Facts.
Import JS Node Server Execution.

Lemma str_eqb_spec (a b : JSString) : reflect (a = b) (str_eqb a b).
Proof.
  revert b; induction a as [|x a IH]; intros [|y b]; simpl;
    try (constructor; congruence).
  destruct (N.eqb_spec x y) as [->|Hxy]; simpl.
  - destruct (IH b) as [->|Hab]; constructor; congruence.
  - constructor; congruence.
Qed.

Lemma str_neq (a b : JSString) : str_eqb a b = false -> a <> b.
Proof. destruct (str_eqb_spec a b); congruence. Qed.


Section Templates.
Context {num : Type} {F64 : Float64 num}.

#[local] Abbreviation JSValue := (JSValue num).

(** The text [JSON.stringify(plan, null, 2)] leaves in a template. *)
Lemma ToString_stringify (plan : JSValue) :
  exists serialized, ToString (JSON.stringify plan) = inr serialized.
Proof.
  unfold JSON.stringify.
  destruct (JSON.SerializeJSONProperty [] plan); simpl; eauto.
Qed.

Lemma ToString_serialized (plan : JSValue) :
  ToString (JSON.stringify plan) = inr (serialized_plan plan).
Proof.
  unfold serialized_plan, JSON.stringify.
  destruct (JSON.SerializeJSONProperty [] plan); reflexivity.
Qed.

Lemma explainerPrompt_eq (plan : JSValue) :
  explainerPrompt plan
  = inr (explainer_request ++ serialized_plan plan ++ explainer_end).
Proof. unfold explainerPrompt; now rewrite ToString_serialized. Qed.

Lemma explainerPrompt_total (plan : JSValue) :
  exists p3, explainerPrompt plan = inr p3.
Proof. rewrite explainerPrompt_eq; eauto. Qed.

Lemma generatorPrompt_eq (plan previousCode : JSValue) :
  generatorPrompt plan previousCode
  = match ToString (previous_ui previousCode) with
    | inl e => inl e
    | inr previous =>
        inr (generator_role ++ generator_components ++ generator_rules
             ++ generator_plan ++ serialized_plan plan
             ++ previous_ui_heading ++ previous ++ LF)
    end.
Proof. unfold generatorPrompt; now rewrite ToString_serialized. Qed.

(** *** What JSON.parse returns is never undefined *)

Lemma finish_defined (v v' : JSValue) stack :
  v <> JUndefined -> JSON.finish v stack = JSON.PDone v' -> v' <> JUndefined.
Proof.
  destruct stack as [|[before|props key] stack]; simpl; intros Hv H;
    inversion H; subst; assumption.
Qed.

Lemma parse_value_defined t stack (v : JSValue) :
  JSON.parse_value t stack = JSON.PDone v -> v <> JUndefined.
Proof.
  destruct t; simpl; try discriminate;
    apply finish_defined; discriminate.
Qed.

Lemma parse_step_defined st t (v : JSValue) :
  JSON.parse_step st t = JSON.PDone v -> v <> JUndefined.
Proof.
  destruct st; simpl; try discriminate;
    try (apply parse_value_defined);
    destruct t; simpl; try discriminate;
    try (apply finish_defined; discriminate);
    try (apply parse_value_defined).
Qed.

Lemma parse_defined text (v : JSValue) :
  JSON.parse text = inr v -> v <> JUndefined.
Proof.
  unfold JSON.parse.
  destruct (JSON.tokens text) as [ts|]; [|discriminate].
  destruct ts as [|t ts] using rev_ind; [discriminate|].
  rewrite fold_left_app; simpl.
  destruct (JSON.parse_step _ t) eqn:Hstep; try discriminate.
  intros H; injection H as <-. eapply parse_step_defined; eauto.
Qed.

(** The text of the failure scenario is no JSON text, whatever the
    numbers are. *)
Lemma not_json_does_not_parse :
  JSON.parse (num := num) (trim (lit "not json")) = inl SyntaxError.
Proof. reflexivity. Qed.

(** So the serialization of a parsed plan is a string. *)
Lemma stringify_parsed text (plan : JSValue) :
  JSON.parse text = inr plan ->
  JSON.stringify plan = JString (serialized_plan plan).
Proof.
  intros H; apply parse_defined in H.
  unfold serialized_plan, JSON.stringify.
  destruct plan as [| |[|]| | |[|x items]|props]; simpl; try reflexivity;
    try congruence.
  match goal with |- context [flat_map ?f ?l] => destruct (flat_map f l) end;
    reflexivity.
Qed.

(** Once the planner template was rendered, the conversion of
    [previousCode || "None"] is known not to throw. *)
Lemma plannerPrompt_previous (message previousCode : JSValue) p1 :
  plannerPrompt message previousCode = inr p1 ->
  exists previous, ToString (previous_ui previousCode) = inr previous.
Proof.
  unfold plannerPrompt.
  destruct (ToString message); [discriminate|].
  destruct (ToString (previous_ui previousCode)); [discriminate|eauto].
Qed.

Lemma generatorPrompt_after_planner (message plan previousCode : JSValue) p1 :
  plannerPrompt message previousCode = inr p1 ->
  exists p2, generatorPrompt plan previousCode = inr p2.
Proof.
  intros H; destruct (plannerPrompt_previous _ _ _ H) as [previous Hp].
  unfold generatorPrompt.
  destruct (ToString_stringify plan) as [s ->]; rewrite Hp; eauto.
Qed.

End Templates.

Section Steps.
Context {num : Type} {F64 : Float64 num} {M : ModelClient}.

#[local] Abbreviation JSValue := (JSValue num).
#[local] Abbreviation World := (World num M).

Lemma during_start (w : World) : w = during w (model w) [] [].
Proof. destruct w; unfold during; simpl; rewrite !app_nil_r; reflexivity. Qed.

Lemma generateContent_during (w : World) m made logged request :
  model_generateContent request (during w m made logged) =
  (fst (generateContent M request m),
   during w (snd (generateContent M request m))
     (made ++ [call request (fst (generateContent M request m))]) logged).
Proof.
  unfold model_generateContent, during, call; simpl.
  destruct (generateContent M request m); simpl.
  rewrite app_assoc; reflexivity.
Qed.

Lemma console_log_during (w : World) m made logged entry :
  console_log entry (during w m made logged) =
  (inr tt, during w m made (logged ++ [entry])).
Proof.
  unfold console_log, during; simpl; rewrite app_assoc; reflexivity.
Qed.

Lemma res_status_json_during (w : World) m made logged code payload :
  res_status_json code payload (during w m made logged) =
  (inr tt, after w m made logged {| status := code; body := payload |}).
Proof. reflexivity. Qed.

Lemma catch_block_during (w : World) m made logged e :
  catch_block e (during w m made logged) =
  (inr tt, after w m made (logged ++ caught e) failure).
Proof.
  unfold catch_block, bind.
  rewrite !console_log_during, res_status_json_during.
  rewrite <- app_assoc; reflexivity.
Qed.

(** Every run of the pipeline under the catch block completes, along
    one of the six ways of [Pipeline]. *)
Lemma pipeline_run (message previousCode : JSValue) (w : World) :
  exists w',
    try_catch (pipeline message previousCode) catch_block w = (inr tt, w')
    /\ Pipeline message previousCode w w'.
Proof.
  enough (H : forall w0, w0 = during w (model w) [] [] ->
            exists w',
              try_catch (pipeline message previousCode) catch_block w0
              = (inr tt, w')
              /\ Pipeline message previousCode w w')
    by apply H, during_start.
  intros w0 ->.
  unfold try_catch, pipeline, bind, completion.
  destruct (plannerPrompt message previousCode) as [e|p1] eqn:Hp1.
  { rewrite catch_block_during. eexists; split; [reflexivity|].
    now apply PlannerPromptThrows. }
  rewrite generateContent_during; cbn [fst snd].
  destruct (generateContent M p1 (model w)) as [[e|t1] m1] eqn:Hc1; cbn [fst snd].
  { rewrite catch_block_during. eexists; split; [reflexivity|].
    now apply PlannerCallFails. }
  rewrite console_log_during; cbn [fst snd].
  destruct (JSON.parse (trim t1)) as [e|plan] eqn:Hplan.
  { rewrite catch_block_during. eexists; split; [reflexivity|].
    now apply PlanMalformed. }
  destruct (generatorPrompt_after_planner message plan previousCode p1 Hp1)
    as [p2 Hp2].
  rewrite Hp2, generateContent_during; cbn [fst snd].
  destruct (generateContent M p2 m1) as [[e|t2] m2] eqn:Hc2; cbn [fst snd].
  { rewrite catch_block_during. eexists; split; [reflexivity|].
    now eapply GeneratorCallFails; eauto. }
  destruct (explainerPrompt_total plan) as [p3 Hp3].
  rewrite Hp3, generateContent_during; cbn [fst snd].
  destruct (generateContent M p3 m2) as [[e|t3] m3] eqn:Hc3; cbn [fst snd].
  { rewrite catch_block_during. eexists; split; [reflexivity|].
    now eapply ExplainerCallFails; eauto. }
  rewrite res_status_json_during. eexists; split; [reflexivity|].
  now eapply Completed; eauto.
Qed.

(** Every request is answered: the handler completes without throwing,
    along one of the ways of [Handled]. *)
Lemma post_generate_run (req_body : JSValue) (w : World) :
  exists w',
    post_generate req_body w = (inr tt, w') /\ Handled req_body w w'.
Proof.
  pose proof (during_start w) as Hw.
  destruct (destructure_body req_body) as [e|[message previousCode]] eqn:Hd.
  - exists (after w (model w) [] (caught e) failure); split.
    + unfold post_generate, try_catch, bind, completion; rewrite Hd.
      apply (f_equal (catch_block e)) in Hw; rewrite Hw.
      now rewrite catch_block_during.
    + now apply NoBody.
  - destruct (ToBoolean message) eqn:Hm.
    + destruct (pipeline_run message previousCode w) as (w' & Hrun & Hp).
      exists w'; split; [|now eapply Accepted; eauto].
      rewrite <- Hrun.
      unfold post_generate, try_catch, bind, completion; rewrite Hd; cbn [fst snd].
      rewrite Hm; cbn [negb]; reflexivity.
    + exists (after w (model w) [] [] rejection); split;
        [|now eapply Rejected; eauto].
      unfold post_generate, try_catch, bind, completion; rewrite Hd; cbn [fst snd].
      rewrite Hm; cbn [negb].
      apply (f_equal (res_status_json 400 message_required)) in Hw.
      now rewrite Hw, res_status_json_during.
Qed.

Lemma handle_run (req_body : JSValue) (w : World) :
  post_generate req_body w = (inr tt, handle req_body w)
  /\ Handled req_body w (handle req_body w).
Proof.
  destruct (post_generate_run req_body w) as (w' & Hrun & Hh).
  unfold handle; rewrite Hrun; auto.
Qed.

Lemma skipn_length_app {A} (l r : list A) : skipn (List.length l) (l ++ r) = r.
Proof. induction l; simpl; auto. Qed.

End Steps.

End Facts.

(** ** The claims of the specification on the handler *)

Module Claims.
Import JS Node Server Execution Facts.

(** Reads the calls made off a hypothesis on the calls of the world
    after the request. *)
Ltac made H :=
  unfold after in H; cbn [calls sent] in H;
  apply app_inv_head in H.

(** No call can be read out of an empty list. *)
Ltac destruct_nth :=
  match goal with
  | H : nth_error [] ?i = Some _ |- _ => destruct i; discriminate H
  end.

(** Case analysis on the way the request went. *)
Ltac ways req_body w :=
  destruct (handle_run req_body w) as [_ Hway];
  destruct Hway as [? Hd|message' previous' Hd Hm
                   |message' previous' w' Hd Hm Hpipe].

Section Handler.
Context {num : Type} {F64 : Float64 num} {M : ModelClient}.

#[local] Abbreviation JSValue := (JSValue num).
#[local] Abbreviation World := (World num M).

(** C1: when the guard on message passes, the three calls to the model
    client succeed and the planner text parses, the handler answers
    200 with a body of exactly three fields: plan (the parsed planner
    output), code (the text of the generator call) and explanation (the
    text of the explainer call). *)
Theorem success_answer (req_body message previousCode plan : JSValue)
  (w : World) (p1 p2 p3 t1 t2 t3 : JSString) :
  destructure_body req_body = inr (message, previousCode) ->
  ToBoolean message = true ->
  calls (handle req_body w)
    = calls w ++ [call p1 (inr t1); call p2 (inr t2); call p3 (inr t3)] ->
  JSON.parse (trim t1) = inr plan ->
  post_generate req_body w = (inr tt, handle req_body w)
  /\ sent (handle req_body w)
     = sent w
       ++ [{| status := 200;
              body := JObject [(lit "plan", plan);
                               (lit "code", JString t2);
                               (lit "explanation", JString t3)] |}].
Proof.
  intros Hbody Htruthy Hcalls Hparse.
  split; [apply handle_run|].
  revert Hcalls. ways req_body w; intros Hcalls.
  - made Hcalls; discriminate.
  - made Hcalls; discriminate.
  - destruct Hpipe; made Hcalls; try discriminate.
    injection Hcalls; intros; subst.
    unfold after, success, generation_result; cbn [sent]; congruence.
Qed.



(** C4: behind the guard, when a stage fails (a template cannot be
    rendered, one of the calls to the model client throws, or the
    planner text does not parse) the answer is 500 with the body
    [{ message: Internal server error }], which has no plan, no code
    and no explanation. *)
Theorem failure_answer (req_body message previousCode : JSValue) (w : World)
  (made_calls : list Call) :
  destructure_body req_body = inr (message, previousCode) ->
  ToBoolean message = true ->
  calls (handle req_body w) = calls w ++ made_calls ->
  (exists e, plannerPrompt message previousCode = inl e)
  \/ (exists c e, In c made_calls /\ outcome c = inl e)
  \/ (exists p1 t1 rest e,
        made_calls = call p1 (inr t1) :: rest
        /\ JSON.parse (trim t1) = inl e) ->
  post_generate req_body w = (inr tt, handle req_body w)
  /\ (exists answer,
        sent (handle req_body w) = sent w ++ [answer]
        /\ status answer = 500
        /\ body answer
           = JObject [(lit "message", JString (lit "Internal server error"))]
        /\ GetV (body answer) (lit "plan") = JUndefined
        /\ GetV (body answer) (lit "code") = JUndefined
        /\ GetV (body answer) (lit "explanation") = JUndefined).
Proof.
  intros Hbody Htruthy Hcalls Hfailed.
  split; [apply handle_run|].
  revert Hcalls. ways req_body w; intros Hcalls; try congruence.
  rewrite Hbody in Hd; injection Hd as <- <-.
  destruct Hpipe; made Hcalls; subst made_calls;
    try (exists failure; repeat split; reflexivity).
  exfalso.
  destruct Hfailed as [[e He]|[(c & e & Hin & He)|(q & t & rest & e & Hq & He)]].
  - congruence.
  - simpl in Hin. destruct Hin as [<-|[<-|[<-|[]]]]; discriminate.
  - injection Hq; intros; subst. congruence.
Qed.

(** C5, as the handler has it: whatever the planner text parses to is
    the plan of the generation stage; no check stands between the two.
    The next call is made, with the generator template over that plan. *)
Theorem parsed_plan_forwarded (req_body : JSValue) (w : World)
  (p1 t1 : JSString) (rest : list Call) (plan : JSValue) :
  calls (handle req_body w) = calls w ++ call p1 (inr t1) :: rest ->
  JSON.parse (trim t1) = inr plan ->
  exists message previousCode p2 result rest',
    destructure_body req_body = inr (message, previousCode)
    /\ generatorPrompt plan previousCode = inr p2
    /\ rest = call p2 result :: rest'.
Proof.
  intros Hcalls Hparse.
  revert Hcalls. ways req_body w; intros Hcalls.
  - made Hcalls; discriminate.
  - made Hcalls; discriminate.
  - exists message', previous'.
    destruct Hpipe; made Hcalls; try discriminate;
      injection Hcalls; intros; subst; try congruence;
      match goal with
      | H : JSON.parse (trim t1) = inr ?x |- _ =>
          rewrite Hparse in H; injection H as <-
      end; eauto 10.
Qed.

(** C6: a request answered 200 made exactly three calls, in the order
    planner, generator, explainer; the generator and the explainer
    prompts hold the serialization of the plan parsed from the planner
    text, and the answer holds that plan, the generator text and the
    explainer text. *)
Theorem success_calls (req_body : JSValue) (w : World)
  (answer : Response num) :
  sent (handle req_body w) = sent w ++ [answer] ->
  status answer = 200 ->
  exists message previousCode plan previous p1 t1 t2 t3,
    destructure_body req_body = inr (message, previousCode)
    /\ plannerPrompt message previousCode = inr p1
    /\ JSON.parse (trim t1) = inr plan
    /\ JSON.stringify plan = JString (serialized_plan plan)
    /\ ToString (previous_ui previousCode) = inr previous
    /\ calls (handle req_body w)
       = calls w
         ++ [call p1 (inr t1);
             call (generator_role ++ generator_components
                   ++ generator_rules ++ generator_plan
                   ++ serialized_plan plan
                   ++ previous_ui_heading ++ previous ++ LF) (inr t2);
             call (explainer_request ++ serialized_plan plan
                   ++ explainer_end) (inr t3)]
    /\ body answer
       = JObject [(lit "plan", plan); (lit "code", JString t2);
                  (lit "explanation", JString t3)].
Proof.
  intros Hsent Hstatus.
  revert Hsent. ways req_body w; intros Hsent.
  - made Hsent. injection Hsent as <-. discriminate.
  - made Hsent. injection Hsent as <-. discriminate.
  - destruct Hpipe; made Hsent; injection Hsent as <-; try discriminate.
    match goal with
    | H : plannerPrompt _ _ = inr _ |- _ =>
        destruct (plannerPrompt_previous _ _ _ H) as [previous Hprevious]
    end.
    match goal with
    | H : generatorPrompt _ _ = inr _ |- _ =>
        rewrite generatorPrompt_eq, Hprevious in H; injection H as <-
    end.
    match goal with
    | H : explainerPrompt _ = inr _ |- _ =>
        rewrite explainerPrompt_eq in H; injection H as <-
    end.
    exists message', previous', plan, previous, p1, t1, t2, t3.
    repeat split; eauto using stringify_parsed.
Qed.

(** The run in which every step succeeds. *)
Lemma success_run (req_body message previousCode plan : JSValue) (w : World)
  (p1 p2 p3 t1 t2 t3 : JSString) (m1 m2 m3 : ClientState M) :
  destructure_body req_body = inr (message, previousCode) ->
  ToBoolean message = true ->
  plannerPrompt message previousCode = inr p1 ->
  generateContent M p1 (model w) = (inr t1, m1) ->
  JSON.parse (trim t1) = inr plan ->
  generatorPrompt plan previousCode = inr p2 ->
  generateContent M p2 m1 = (inr t2, m2) ->
  explainerPrompt plan = inr p3 ->
  generateContent M p3 m2 = (inr t3, m3) ->
  handle req_body w
  = after w m3 [call p1 (inr t1); call p2 (inr t2); call p3 (inr t3)]
      [LogString (trim t1)] (success plan t2 t3).
Proof.
  intros Hbody Htruthy Hp1 Hc1 Hparse Hp2 Hc2 Hp3 Hc3.
  ways req_body w; try congruence.
  rewrite Hbody in Hd; injection Hd as <- <-.
  destruct Hpipe;
    repeat match goal with
      | H : plannerPrompt _ _ = _ |- _ =>
          rewrite Hp1 in H; try discriminate; injection H as <-
      | H : generateContent M p1 _ = _ |- _ =>
          rewrite Hc1 in H; try discriminate; injection H as <- <-
      | H : JSON.parse (trim t1) = _ |- _ =>
          rewrite Hparse in H; try discriminate; injection H as <-
      | H : generatorPrompt plan _ = _ |- _ =>
          rewrite Hp2 in H; try discriminate; injection H as <-
      | H : generateContent M p2 _ = _ |- _ =>
          rewrite Hc2 in H; try discriminate; injection H as <- <-
      | H : explainerPrompt plan = _ |- _ =>
          rewrite Hp3 in H; try discriminate; injection H as <-
      | H : generateContent M p3 _ = _ |- _ =>
          rewrite Hc3 in H; try discriminate; injection H as <- <-
      end;
    reflexivity.
Qed.

(** What is truthy besides true and the numbers other than zero and
    NaN: every string with a character, white space included, every
    array and every object. *)
Lemma truthy_values :
  (forall c s, ToBoolean (num := num) (JString (c :: s)) = true)
  /\ (forall items, ToBoolean (num := num) (JArray items) = true)
  /\ (forall props, ToBoolean (num := num) (JObject props) = true)
  /\ (forall n, ToBoolean (JNumber n) = Number_toBoolean n).
Proof. repeat split. Qed.

(** Without a body there is nothing to destructure: the TypeError is
    caught and the answer is 500, not 400. *)
Lemma body_missing_answer (req_body : JSValue) (w : World) :
  req_body = JUndefined \/ req_body = JNull ->
  sent (handle req_body w)
  = sent w ++ [{| status := 500; body := internal_server_error |}]
  /\ calls (handle req_body w) = calls w.
Proof.
  intros Hbody.
  assert (Hd' : destructure_body req_body = inl TypeError)
    by (destruct Hbody as [-> | ->]; reflexivity).
  ways req_body w; try congruence.
  unfold after; cbn [sent calls]. now rewrite app_nil_r.
Qed.

(** The calls a request adds follow the templates: the first prompt is
    the planner template over the fields of the body, the later ones
    are the generator and the explainer templates over the plan parsed
    from the text of the first call. *)
Lemma new_calls_follow_templates (req_body message previousCode : JSValue)
  (w : World) (i : nat) (c : Call) :
  destructure_body req_body = inr (message, previousCode) ->
  nth_error (new_calls req_body w) i = Some c ->
  match i with
  | O => plannerPrompt message previousCode = inr (prompt c)
  | S j =>
      exists c0 t1 plan,
        nth_error (new_calls req_body w) 0 = Some c0
        /\ outcome c0 = inr t1
        /\ JSON.parse (trim t1) = inr plan
        /\ match j with
           | O => generatorPrompt plan previousCode
           | S _ => explainerPrompt plan
           end = inr (prompt c)
  end.
Proof.
  intros Hbody. unfold new_calls.
  ways req_body w.
  - unfold after; cbn [calls]; rewrite skipn_length_app. now destruct i.
  - unfold after; cbn [calls]; rewrite skipn_length_app. now destruct i.
  - rewrite Hbody in Hd; injection Hd as <- <-.
    destruct Hpipe; unfold after; cbn [calls]; rewrite skipn_length_app;
      destruct i as [|[|[|i]]]; simpl; intros Hc;
      try discriminate; try (destruct i; discriminate);
      injection Hc as <-; simpl; auto;
      eexists _, _, _;
      (split; [reflexivity|split; [reflexivity|split; eassumption]]).
Qed.

(** C8, as the templates have it: the generator prompt ends with the
    PREVIOUS UI heading and, under it, the previous code itself when
    that is a string with at least one character; the marker None when
    it is null, absent or the empty string, whatever the plan is. *)
Theorem generator_previous_ui (plan : JSValue) :
  (forall c s,
     generatorPrompt plan (JString (c :: s))
     = inr (generator_role ++ generator_components ++ generator_rules
            ++ generator_plan ++ serialized_plan plan
            ++ previous_ui_heading ++ (c :: s) ++ LF))
  /\ (forall previousCode,
        previousCode = JNull \/ previousCode = JUndefined
        \/ previousCode = JString [] ->
        generatorPrompt plan previousCode
        = inr (generator_role ++ generator_components ++ generator_rules
               ++ generator_plan ++ serialized_plan plan
               ++ previous_ui_heading ++ lit "None" ++ LF)).
Proof.
  split.
  - intros c s. now rewrite generatorPrompt_eq.
  - intros previousCode [->|[->| ->]]; now rewrite generatorPrompt_eq.
Qed.

(** C9, as the handler has it: with a body that can be destructured,
    the answer is 400 exactly when message is falsy.  A truthy message
    of any type goes on; when the conversions of the planner template
    to string succeed, the converted message stands between quotes in
    the prompt of the first call. *)
Theorem message_guard_is_truthiness (req_body message previousCode : JSValue)
  (w : World) :
  destructure_body req_body = inr (message, previousCode) ->
  (ToBoolean message = false ->
     sent (handle req_body w)
     = sent w ++ [{| status := 400; body := message_required |}]
     /\ calls (handle req_body w) = calls w)
  /\ (ToBoolean message = true ->
        (exists answer,
           sent (handle req_body w) = sent w ++ [answer]
           /\ status answer <> 400)
        /\ forall text previous,
             ToString message = inr text ->
             ToString (previous_ui previousCode) = inr previous ->
             exists result rest,
               calls (handle req_body w)
               = calls w
                 ++ call (planner_role ++ planner_components
                          ++ planner_rules ++ planner_output_format
                          ++ planner_request ++ quoted text
                          ++ previous_ui_heading ++ previous ++ LF)
                      result
                    :: rest).
Proof.
  intros Hbody. split; intros Htruth.
  - ways req_body w; try congruence.
    unfold after; cbn [sent calls]. now rewrite app_nil_r.
  - ways req_body w; try congruence.
    rewrite Hbody in Hd; injection Hd as <- <-.
    split.
    + destruct Hpipe; unfold after; cbn [sent];
        eexists; (split; [reflexivity|discriminate]).
    + intros text previous Htext Hprevious.
      assert (Hp : plannerPrompt message previousCode
                   = inr (planner_role ++ planner_components
                          ++ planner_rules ++ planner_output_format
                          ++ planner_request ++ quoted text
                          ++ previous_ui_heading ++ previous ++ LF)).
      { unfold plannerPrompt. now rewrite Htext, Hprevious. }
      destruct Hpipe; unfold after; cbn [calls];
        match goal with
        | H : plannerPrompt _ _ = _ |- _ =>
            rewrite Hp in H; try discriminate; injection H as <-
        end; eauto.
Qed.

(** C10: the empty string as previous code renders the planner and the
    generator prompts that null renders: both hold the marker None
    under the PREVIOUS UI heading. *)
Theorem empty_previous_code_is_none (message plan : JSValue) :
  plannerPrompt message (JString []) = plannerPrompt message JNull
  /\ generatorPrompt plan (JString []) = generatorPrompt plan JNull
  /\ generatorPrompt plan (JString [])
     = inr (generator_role ++ generator_components ++ generator_rules
            ++ generator_plan ++ serialized_plan plan
            ++ previous_ui_heading ++ lit "None" ++ LF)
  /\ (forall text,
        ToString message = inr text ->
        plannerPrompt message (JString [])
        = inr (planner_role ++ planner_components ++ planner_rules
               ++ planner_output_format ++ planner_request ++ quoted text
               ++ previous_ui_heading ++ lit "None" ++ LF)).
Proof.
  repeat split.
  - now rewrite generatorPrompt_eq.
  - intros text Htext. unfold plannerPrompt. now rewrite Htext.
Qed.

(** *** The handler of index.js *)

(** Its run when the three calls succeed: the planner text is not
    parsed, it goes into both later prompts as it came, and the answer
    has a code and an explanation but no plan. *)
Lemma index_js_success (req_body message previousCode : JSValue) (w : World)
  (p1 planText code explanation : JSString) (m1 m2 m3 : ClientState M) :
  destructure_body req_body = inr (message, previousCode) ->
  ToBoolean message = true ->
  IndexJs.plannerPrompt message previousCode = inr p1 ->
  generateContent M p1 (model w) = (inr planText, m1) ->
  generateContent M (IndexJs.generatorPrompt planText) m1 = (inr code, m2) ->
  generateContent M (IndexJs.explainerPrompt planText) m2
  = (inr explanation, m3) ->
  IndexJs.post_generate req_body w
  = (inr tt,
     after w m3
       [call p1 (inr planText);
        call (IndexJs.generatorPrompt planText) (inr code);
        call (IndexJs.explainerPrompt planText) (inr explanation)]
       []
       {| status := 200;
          body := JObject [(lit "code", JString code);
                           (lit "explanation", JString explanation)] |}).
Proof.
  intros Hd Hm Hp1 Hc1 Hc2 Hc3.
  unfold IndexJs.post_generate, try_catch, bind, completion.
  rewrite Hd; cbn [fst snd]. rewrite Hm; cbn [negb]. rewrite Hp1.
  pose proof (during_start w) as Hw.
  apply (f_equal (model_generateContent p1)) in Hw. rewrite Hw.
  rewrite generateContent_during, Hc1; cbn [fst snd].
  rewrite generateContent_during, Hc2; cbn [fst snd].
  rewrite generateContent_during, Hc3; cbn [fst snd].
  rewrite res_status_json_during. reflexivity.
Qed.

End Handler.

(** C7: the prompts are a function of the message, the previous code
    and the plan alone.  Two requests with the same two fields, served
    by any two clients in any two states, send the same planner prompt;
    when their planner texts parse alike, they send the same generator
    and explainer prompts. *)
Theorem prompts_deterministic {num : Type} {F64 : Float64 num}
  (M1 M2 : ModelClient) (body1 body2 : JSValue num)
  (w1 : World num M1) (w2 : World num M2) :
  destructure_body body1 = destructure_body body2 ->
  (forall c1 c2,
     nth_error (new_calls body1 w1) 0 = Some c1 ->
     nth_error (new_calls body2 w2) 0 = Some c2 ->
     prompt c1 = prompt c2)
  /\ (forall c1 c2 t1 t2,
        nth_error (new_calls body1 w1) 0 = Some c1 ->
        nth_error (new_calls body2 w2) 0 = Some c2 ->
        outcome c1 = inr t1 -> outcome c2 = inr t2 ->
        JSON.parse (trim t1) = JSON.parse (trim t2) ->
        forall i x y,
          nth_error (new_calls body1 w1) i = Some x ->
          nth_error (new_calls body2 w2) i = Some y ->
          prompt x = prompt y).
Proof.
  intros Hsame.
  destruct (destructure_body body1) as [e|[message previousCode]] eqn:Hd1.
  { (* no call at all *)
    assert (Hnone : new_calls body1 w1 = []).
    { unfold new_calls. destruct (handle_run body1 w1) as [_ Hway].
      destruct Hway as [? Hd|? ? Hd Hm|? ? ? Hd Hm Hpipe]; try congruence.
      unfold after; cbn [calls]. now rewrite skipn_length_app. }
    rewrite Hnone. split; intros; now destruct_nth. }
  symmetry in Hsame.
  assert (Hfirst : forall c1 c2,
             nth_error (new_calls body1 w1) 0 = Some c1 ->
             nth_error (new_calls body2 w2) 0 = Some c2 ->
             prompt c1 = prompt c2).
  { intros c1 c2 H1 H2.
    pose proof (new_calls_follow_templates _ _ _ _ _ _ Hd1 H1) as E1.
    pose proof (new_calls_follow_templates _ _ _ _ _ _ Hsame H2) as E2.
    cbv beta iota in E1, E2. congruence. }
  split; [exact Hfirst|].
  intros c1 c2 t1 t2 H1 H2 Ho1 Ho2 Hplans [|j] x y Hx Hy.
  { eauto. }
  pose proof (new_calls_follow_templates _ _ _ _ _ _ Hd1 Hx) as E1.
  pose proof (new_calls_follow_templates _ _ _ _ _ _ Hsame Hy) as E2.
  cbv beta iota in E1, E2.
  destruct E1 as (a & ta & plan_a & Ha & Hoa & Hpa & Ea).
  destruct E2 as (b & tb & plan_b & Hb & Hob & Hpb & Eb).
  assert (a = c1) by congruence; assert (b = c2) by congruence; subst a b.
  assert (ta = t1) by congruence; assert (tb = t2) by congruence; subst.
  assert (plan_a = plan_b) by congruence; subst plan_b.
  destruct j; congruence.
Qed.

End Claims.

(** ** The handler on the scenarios of the specification *)

Module Scenarios.
Import JS Node Server Execution Facts Claims Stubs IntegerNumbers.

(** The end-to-end scenario: a plan, a fragment and a prose come back
    and make the answer. *)
Lemma success_answer_witness :
  post_generate dashboard_request (started all_good)
  = (inr tt, handle dashboard_request (started all_good))
  /\ sent (handle dashboard_request (started all_good))
     = [{| status := 200;
           body := JObject [(lit "plan", navbar_plan);
                            (lit "code", JString fragment);
                            (lit "explanation", JString prose)] |}].
Proof.
  apply (success_answer (M := scripted) dashboard_request
           (JString (lit "Create a dashboard with user stats")) JUndefined
           navbar_plan (started all_good)
           (rendered (plannerPrompt
                        (JString (lit "Create a dashboard with user stats"))
                        JUndefined))
           (rendered (generatorPrompt navbar_plan JUndefined))
           (rendered (explainerPrompt navbar_plan))
           navbar_plan_text fragment prose);
    vm_compute; reflexivity.
Defined.




(** The model client fails on the generator call. *)
Lemma failure_answer_witness :
  post_generate dashboard_request (started generator_down)
  = (inr tt, handle dashboard_request (started generator_down))
  /\ (exists answer,
        sent (handle dashboard_request (started generator_down))
        = [answer]
        /\ status answer = 500
        /\ body answer
           = JObject [(lit "message", JString (lit "Internal server error"))]
        /\ GetV (body answer) (lit "plan") = JUndefined
        /\ GetV (body answer) (lit "code") = JUndefined
        /\ GetV (body answer) (lit "explanation") = JUndefined).
Proof.
  apply (failure_answer (M := scripted) dashboard_request
           (JString (lit "Create a dashboard with user stats")) JUndefined
           (started generator_down)
           [call (rendered (plannerPrompt
                    (JString (lit "Create a dashboard with user stats"))
                    JUndefined)) (inr navbar_plan_text);
            call (rendered (generatorPrompt navbar_plan JUndefined))
              unreachable]).
  - vm_compute; reflexivity.
  - vm_compute; reflexivity.
  - vm_compute; reflexivity.
  - right; left.
    exists (call (rendered (generatorPrompt navbar_plan JUndefined))
              unreachable), (ClientError (lit "fetch failed")).
    split; [right; left; reflexivity|reflexivity].
Defined.

(** A plan with a component outside the vocabulary goes on to the
    generator. *)
Lemma parsed_plan_forwarded_witness :
  exists message previousCode p2 result rest',
    destructure_body dashboard_request = inr (message, previousCode)
    /\ generatorPrompt table_plan previousCode = inr p2
    /\ [call (rendered (generatorPrompt table_plan JUndefined))
          (inr fragment);
        call (rendered (explainerPrompt table_plan)) (inr prose)]
       = call p2 result :: rest'.
Proof.
  apply (parsed_plan_forwarded (M := scripted) dashboard_request
           (started table_planned)
           (rendered (plannerPrompt
                        (JString (lit "Create a dashboard with user stats"))
                        JUndefined))
           table_plan_text
           [call (rendered (generatorPrompt table_plan JUndefined))
              (inr fragment);
            call (rendered (explainerPrompt table_plan)) (inr prose)]
           table_plan);
    vm_compute; reflexivity.
Defined.

(** C5 as it is written fails: the planner text below parses to a plan
    whose component is none of the seven, and the handler renders the
    generator prompt over it, calls the model client with it and
    answers 200 with that plan. *)
Lemma invalid_plan_forwarded :
  JSON.parse (trim table_plan_text) = inr table_plan
  /\ Contract.valid_plan table_plan = false
  /\ map (fun c => inr (prompt c))
       (calls (handle dashboard_request (started table_planned)))
     = [plannerPrompt (JString (lit "Create a dashboard with user stats"))
          JUndefined;
        generatorPrompt table_plan JUndefined;
        explainerPrompt table_plan]
  /\ sent (handle dashboard_request (started table_planned))
     = [{| status := 200;
           body := JObject [(lit "plan", table_plan);
                            (lit "code", JString fragment);
                            (lit "explanation", JString prose)] |}].
Proof. repeat split; vm_compute; reflexivity. Qed.

(** The end-to-end scenario, read from its answer. *)
Lemma success_calls_witness :
  exists message previousCode plan previous p1 t1 t2 t3,
    destructure_body dashboard_request = inr (message, previousCode)
    /\ plannerPrompt message previousCode = inr p1
    /\ JSON.parse (trim t1) = inr plan
    /\ JSON.stringify plan = JString (serialized_plan plan)
    /\ ToString (previous_ui previousCode) = inr previous
    /\ calls (handle dashboard_request (started all_good))
       = calls (started all_good)
         ++ [call p1 (inr t1);
             call (generator_role ++ generator_components
                   ++ generator_rules ++ generator_plan
                   ++ serialized_plan plan
                   ++ previous_ui_heading ++ previous ++ LF) (inr t2);
             call (explainer_request ++ serialized_plan plan
                   ++ explainer_end) (inr t3)]
    /\ body (success navbar_plan fragment prose)
       = JObject [(lit "plan", plan); (lit "code", JString t2);
                  (lit "explanation", JString t3)].
Proof.
  apply (success_calls (M := scripted) dashboard_request (started all_good)
           (success navbar_plan fragment prose));
    vm_compute; reflexivity.
Defined.


(** Two bodies with the same message, one of them with a field the
    handler does not read, served by a scripted client and by a
    constant one. *)
Lemma prompts_deterministic_witness :
  (forall c1 c2,
     nth_error (new_calls dashboard_request (started all_good)) 0 = Some c1 ->
     nth_error
       (new_calls annotated_request
          (fresh (M := constant navbar_plan_text) tt)) 0 = Some c2 ->
     prompt c1 = prompt c2)
  /\ (forall c1 c2 t1 t2,
        nth_error (new_calls dashboard_request (started all_good)) 0
        = Some c1 ->
        nth_error
          (new_calls annotated_request
             (fresh (M := constant navbar_plan_text) tt)) 0 = Some c2 ->
        outcome c1 = inr t1 -> outcome c2 = inr t2 ->
        JSON.parse (trim t1) = JSON.parse (trim t2) ->
        forall i x y,
          nth_error (new_calls dashboard_request (started all_good)) i
          = Some x ->
          nth_error
            (new_calls annotated_request
               (fresh (M := constant navbar_plan_text) tt)) i = Some y ->
          prompt x = prompt y).
Proof.
  apply (prompts_deterministic scripted (constant navbar_plan_text)
           dashboard_request annotated_request).
  vm_compute; reflexivity.
Defined.

(** C8 as it is written fails: the empty string is a previous code
    that is not null, and the generator prompt does not hold it under
    the PREVIOUS UI heading; it holds the marker None there. *)
Lemma empty_previous_code_not_embedded :
  JString [] <> @JNull Z
  /\ generatorPrompt navbar_plan (JString [])
     <> inr (generator_role ++ generator_components ++ generator_rules
             ++ generator_plan ++ serialized_plan navbar_plan
             ++ previous_ui_heading ++ [] ++ LF)
  /\ generatorPrompt navbar_plan (JString [])
     = inr (generator_role ++ generator_components ++ generator_rules
            ++ generator_plan ++ serialized_plan navbar_plan
            ++ previous_ui_heading ++ lit "None" ++ LF).
Proof.
  split; [discriminate|split].
  - rewrite generatorPrompt_eq; cbn [previous_ui logical_or ToBoolean ToString].
    intros H; apply (f_equal rendered) in H; revert H.
    apply str_neq. vm_compute; reflexivity.
  - vm_compute; reflexivity.
Qed.

(** A message of three spaces. *)
Lemma message_guard_is_truthiness_witness :
  (ToBoolean (JString (lit "   ")) = false ->
     sent (handle (request (lit "   ")) (started all_good))
     = sent (started all_good)
       ++ [{| status := 400; body := message_required |}]
     /\ calls (handle (request (lit "   ")) (started all_good))
        = calls (started all_good))
  /\ (ToBoolean (JString (lit "   ")) = true ->
        (exists answer,
           sent (handle (request (lit "   ")) (started all_good))
           = sent (started all_good) ++ [answer]
           /\ status answer <> 400)
        /\ forall text previous,
             ToString (JString (lit "   ")) = inr text ->
             ToString (previous_ui (@JUndefined Z)) = inr previous ->
             exists result rest,
               calls (handle (request (lit "   ")) (started all_good))
               = calls (started all_good)
                 ++ call (planner_role ++ planner_components
                          ++ planner_rules ++ planner_output_format
                          ++ planner_request ++ quoted text
                          ++ previous_ui_heading ++ previous ++ LF)
                      result
                    :: rest).
Proof.
  apply (message_guard_is_truthiness (M := scripted) (request (lit "   "))
           (JString (lit "   ")) JUndefined (started all_good)).
  vm_compute; reflexivity.
Defined.

(** C9 as it is written fails: an object with a property of its own
    named toString is truthy and passes the guard, yet it never reaches
    a planner prompt: its conversion to a string throws, no call is
    made and the answer is 500. *)
Lemma truthy_message_not_interpolated :
  ToBoolean unprintable = true
  /\ ToString unprintable = inl TypeError
  /\ calls (handle (request_with unprintable JNull) (started all_good)) = []
  /\ sent (handle (request_with unprintable JNull) (started all_good))
     = [{| status := 500; body := internal_server_error |}].
Proof. repeat split; vm_compute; reflexivity. Qed.

(** The handler of index.js on the failure scenario: the text not json
    is not parsed, the three calls are made and the answer is 200. *)
Lemma index_js_takes_any_text :
  map outcome
    (calls (snd (IndexJs.post_generate dashboard_request (started not_json))))
  = not_json
  /\ sent (snd (IndexJs.post_generate dashboard_request (started not_json)))
     = [{| status := 200;
           body := JObject [(lit "code", JString fragment);
                            (lit "explanation", JString prose)] |}].
Proof. split; vm_compute; reflexivity. Qed.

End Scenarios.

(** * Further properties of the two handlers *)

(** ** The answers, the calls and the console of a request *)

Module HandlerFacts.
Import JS Node Server Execution Facts Locality Claims.

Section Handler.
Context {num : Type} {F64 : Float64 num} {M : ModelClient}.

#[local] Abbreviation JSValue := (JSValue num).
#[local] Abbreviation World := (World num M).

(** X3: every request is answered exactly once and the handler never
    throws.  The answer is 400 with the message-required body, 500 with
    the internal-server-error body, or 200 with a plan, a code and an
    explanation, where the plan is never undefined, so the answer keeps
    its three fields when it is written as JSON. *)
Theorem one_answer_per_request (req_body : JSValue) (w : World) :
  post_generate req_body w = (inr tt, handle req_body w)
  /\ exists answer,
       sent (handle req_body w) = sent w ++ [answer]
       /\ ((status answer = 400 /\ body answer = message_required)
           \/ (status answer = 500 /\ body answer = internal_server_error)
           \/ (status answer = 200
               /\ exists plan code explanation,
                    body answer = generation_result plan code explanation
                    /\ plan <> JUndefined)).
Proof.
  split; [apply handle_run|].
  ways req_body w.
  - exists failure; split; [reflexivity|]. right; left; split; reflexivity.
  - exists rejection; split; [reflexivity|]. left; split; reflexivity.
  - destruct Hpipe;
      try (exists failure; split; [reflexivity|];
           right; left; split; reflexivity).
    exists (success plan t2 t3); split; [reflexivity|].
    right; right; split; [reflexivity|].
    exists plan, t2, t3; split; [reflexivity|].
    eapply parse_defined; eauto.
Qed.

(** X4: a request makes at most three calls, and it goes on to a next
    call only when the call before succeeded: every call but the last
    one made has a text as its outcome. *)
Theorem calls_stop_at_first_failure (req_body : JSValue) (w : World) :
  (List.length (new_calls req_body w) <= 3)%nat
  /\ forall i c,
       nth_error (new_calls req_body w) i = Some c ->
       (S i < List.length (new_calls req_body w))%nat ->
       exists text, outcome c = inr text.
Proof.
  unfold new_calls.
  ways req_body w;
    [ | | destruct Hpipe];
    unfold after; cbn [calls]; rewrite skipn_length_app;
    (split; [simpl; lia|]);
    intros i c Hc Hi; simpl in Hi;
    destruct i as [|[|[|i]]]; simpl in Hc; try lia;
    injection Hc as <-; simpl; eauto.
Qed.

(** X6: what reaches the console.  The trimmed planner text is logged
    as soon as the planner call returned, whether it parses or not; a
    500 adds the error and its message after it; a 400 and a 200 add
    nothing else. *)
Theorem console_of_a_request (req_body : JSValue) (w : World) :
  exists answer,
    new_answers req_body w = [answer]
    /\ exists errors,
         new_console req_body w
         = match new_calls req_body w with
           | c :: _ =>
               match outcome c with
               | inr text => [LogString (trim text)]
               | inl _ => []
               end
           | [] => []
           end ++ errors
         /\ (status answer <> 500 -> errors = [])
         /\ (status answer = 500 ->
             exists e, errors = [LogError e; LogErrorMessage e]).
Proof.
  unfold new_answers, new_console, new_calls.
  ways req_body w;
    [ | | destruct Hpipe];
    unfold after; cbn [calls console sent]; rewrite !skipn_length_app;
    eexists; (split; [reflexivity|]); cbn [outcome call];
    first
      [ exists []; split; [reflexivity|];
        split; [intros _; reflexivity|intros Hs; cbv in Hs; discriminate Hs]
      | eexists; split; [reflexivity|];
        split; [intros Hs; exfalso; apply Hs; reflexivity
               |intros _; eexists; reflexivity] ].
Qed.

End Handler.

End HandlerFacts.

(** ** The handler of index.js *)

Module IndexJsFacts.
Import JS Node Execution Facts Locality IndexJsExecution.

Section Handler.
Context {num : Type} {F64 : Float64 num} {M : ModelClient}.

#[local] Abbreviation JSValue := (JSValue num).
#[local] Abbreviation World := (World num M).

(** Every request completes, along one of the ways of [IndexHandled]. *)
Lemma index_run (req_body : JSValue) (w : World) :
  IndexJs.post_generate req_body w = (inr tt, index_handle req_body w)
  /\ IndexHandled req_body w (index_handle req_body w).
Proof.
  enough (H : exists w', IndexJs.post_generate req_body w = (inr tt, w')
                         /\ IndexHandled req_body w w').
  { destruct H as (w' & Hrun & Hw). unfold index_handle.
    rewrite Hrun; auto. }
  enough (H : forall w0, w0 = during w (model w) [] [] ->
            exists w', IndexJs.post_generate req_body w0 = (inr tt, w')
                       /\ IndexHandled req_body w w')
    by apply H, during_start.
  intros w0 ->.
  unfold IndexJs.post_generate, try_catch, bind, completion.
  destruct (destructure_body req_body) as [e|[message previousCode]] eqn:Hd.
  { rewrite catch_block_during. eexists; split; [reflexivity|].
    now apply IxNoBody. }
  cbn [fst snd].
  destruct (ToBoolean message) eqn:Hm; cbn [negb].
  2:{ rewrite res_status_json_during. eexists; split; [reflexivity|].
      now eapply IxRejected; eauto. }
  destruct (IndexJs.plannerPrompt message previousCode) as [e|p1] eqn:Hp1.
  { rewrite catch_block_during. eexists; split; [reflexivity|].
    now eapply IxPlannerPromptThrows; eauto. }
  rewrite generateContent_during; cbn [fst snd].
  destruct (generateContent M p1 (model w)) as [[e|planText] m1] eqn:Hc1;
    cbn [fst snd].
  { rewrite catch_block_during. eexists; split; [reflexivity|].
    now eapply IxPlannerCallFails; eauto. }
  rewrite generateContent_during; cbn [fst snd].
  destruct (generateContent M (IndexJs.generatorPrompt planText) m1)
    as [[e|code] m2] eqn:Hc2; cbn [fst snd].
  { rewrite catch_block_during. eexists; split; [reflexivity|].
    now eapply IxGeneratorCallFails; eauto. }
  rewrite generateContent_during; cbn [fst snd].
  destruct (generateContent M (IndexJs.explainerPrompt planText) m2)
    as [[e|explanation] m3] eqn:Hc3; cbn [fst snd].
  { rewrite catch_block_during. eexists; split; [reflexivity|].
    now eapply IxExplainerCallFails; eauto. }
  rewrite res_status_json_during. eexists; split; [reflexivity|].
  now eapply IxCompleted; eauto.
Qed.

(** X7: the handler of index.js answers every request exactly once and
    never throws.  The answer is 400 with the message-required body,
    500 with the internal-server-error body, or 200 with a code and an
    explanation; no answer of this handler has a plan.  The console
    gets the error and its message on a 500 and nothing otherwise. *)
Theorem index_js_one_answer (req_body : JSValue) (w : World) :
  IndexJs.post_generate req_body w = (inr tt, index_handle req_body w)
  /\ exists answer,
       sent (index_handle req_body w) = sent w ++ [answer]
       /\ GetV (body answer) (lit "plan") = JUndefined
       /\ ((status answer = 400 /\ body answer = message_required
            /\ console (index_handle req_body w) = console w)
           \/ (status answer = 500 /\ body answer = internal_server_error
               /\ exists e,
                    console (index_handle req_body w)
                    = console w ++ [LogError e; LogErrorMessage e])
           \/ (status answer = 200
               /\ console (index_handle req_body w) = console w
               /\ exists code explanation,
                    body answer
                    = JObject [(lit "code", JString code);
                               (lit "explanation", JString explanation)])).
Proof.
  split; [apply index_run|].
  destruct (index_run req_body w) as [_ Hway].
  destruct Hway; unfold after; cbn [sent console];
    eexists; (split; [reflexivity|]); (split; [reflexivity|]);
    try (right; left; repeat split; eexists; reflexivity).
  - left; repeat split. now rewrite app_nil_r.
  - right; right; repeat split; [now rewrite app_nil_r|].
    eexists _, _; reflexivity.
Qed.

(** X8: the handler of index.js takes any planner text.  Once the
    planner call returned a text, the generator call is made, with
    that text as it came (not trimmed, not parsed) after the plan
    label; when the generator call returned too, the explainer call is
    made with the same text. *)
Theorem index_js_forwards_planner_text (req_body : JSValue) (w : World)
  (p1 planText : JSString) (rest : list Call) :
  calls (index_handle req_body w)
  = calls w ++ call p1 (inr planText) :: rest ->
  exists result rest',
    rest
    = call (IndexJs.generator_opening ++ IndexJs.allowed_components
            ++ IndexJs.generator_plan_label ++ planText
            ++ IndexJs.generator_closing) result
        :: rest'
    /\ (forall code,
          result = inr code ->
          exists result',
            rest'
            = [call (IndexJs.explainer_opening ++ planText
                     ++ IndexJs.explainer_closing) result']).
Proof.
  intros Hcalls. revert Hcalls.
  destruct (index_run req_body w) as [_ Hway].
  destruct Hway; unfold after; cbn [calls]; intros Hcalls;
    apply app_inv_head in Hcalls; try discriminate;
    injection Hcalls; intros; subst;
    eexists _, _; (split; [reflexivity|]);
    intros c Hc; try discriminate; eexists; reflexivity.
Qed.

(** X9: the handler of index.js answers 200 exactly when its three
    calls succeeded, whatever the texts are; the code and the
    explanation of the answer are the texts of the second and the
    third call. *)
Theorem index_js_success_iff (req_body : JSValue) (w : World) :
  exists answer,
    sent (index_handle req_body w) = sent w ++ [answer]
    /\ (status answer = 200 <->
        exists p1 t1 t2 t3,
          index_new_calls req_body w
          = [call p1 (inr t1);
             call (IndexJs.generatorPrompt t1) (inr t2);
             call (IndexJs.explainerPrompt t1) (inr t3)]
          /\ body answer
             = JObject [(lit "code", JString t2);
                        (lit "explanation", JString t3)]).
Proof.
  unfold index_new_calls.
  destruct (index_run req_body w) as [_ Hway].
  destruct Hway; unfold after; cbn [sent calls];
    rewrite skipn_length_app;
    eexists; (split; [reflexivity|]); split;
    try (intros Hs; cbv in Hs; discriminate Hs);
    try (intros (q1 & q2 & q3 & q4 & Hq & _); discriminate Hq).
  - intros _. eexists _, _, _, _; split; reflexivity.
  - reflexivity.
Qed.

(** X10: the guard of index.js is the guard of the other handler.  On a
    request that the guard stops (no body to destructure, or a falsy
    message) the two handlers leave the same world: the same answer,
    the same console and no call. *)
Theorem handlers_agree_at_the_guard (req_body : JSValue) (w : World) :
  (exists e, destructure_body req_body = inl e)
  \/ (exists message previousCode,
        destructure_body req_body = inr (message, previousCode)
        /\ ToBoolean message = false) ->
  index_handle req_body w = handle req_body w
  /\ calls (handle req_body w) = calls w.
Proof.
  intros Hguard.
  destruct (index_run req_body w) as [_ Hix].
  destruct (handle_run req_body w) as [_ Hway].
  destruct Hway as [e1 Hd1|m1 q1 Hd1 Hm1|m1 q1 w' Hd1 Hm1 Hpipe];
    destruct Hix;
    try (exfalso;
         destruct Hguard as [[? ?]|(? & ? & ? & ?)]; congruence);
    unfold after; cbn [calls]; rewrite app_nil_r.
  - match goal with
    | Hb : destructure_body req_body = inl ?b |- _ =>
        assert (e1 = b) by congruence; subst b
    end.
    split; reflexivity.
  - split; reflexivity.
Qed.

End Handler.

End IndexJsFacts.

(** ** The planner text: trimming and parsing *)

Module PlannerTextFacts.
Import JS Node Server Execution Facts Locality Claims.

(** *** String.prototype.trim *)

Lemma trimStart_white pre t :
  forallb isWhiteSpaceOrLineTerminator pre = true ->
  trimStart (pre ++ t) = trimStart t.
Proof.
  induction pre as [|c pre IH]; simpl; [reflexivity|].
  intros H; apply andb_true_iff in H as [Hc Hpre]. rewrite Hc; auto.
Qed.

Lemma trimStart_all_white t :
  forallb isWhiteSpaceOrLineTerminator t = true -> trimStart t = [].
Proof.
  intros H. rewrite <- (app_nil_r t). now rewrite trimStart_white.
Qed.

Lemma trimStart_empty t :
  trimStart t = [] -> forallb isWhiteSpaceOrLineTerminator t = true.
Proof.
  induction t as [|c t IH]; simpl; [reflexivity|].
  destruct (isWhiteSpaceOrLineTerminator c); [auto|discriminate].
Qed.

Lemma trimStart_head s c r :
  trimStart s = c :: r -> isWhiteSpaceOrLineTerminator c = false.
Proof.
  induction s as [|d s IH]; simpl; [discriminate|].
  destruct (isWhiteSpaceOrLineTerminator d) eqn:Hd; [exact IH|].
  intros H; injection H as <- _; exact Hd.
Qed.

Lemma trimStart_suffix s : exists pre, s = pre ++ trimStart s.
Proof.
  induction s as [|d s [pre IH]]; simpl; [exists []; reflexivity|].
  destruct (isWhiteSpaceOrLineTerminator d).
  - exists (d :: pre); simpl; congruence.
  - exists []; reflexivity.
Qed.

Lemma trimStart_app t post :
  trimStart t <> [] -> trimStart (t ++ post) = trimStart t ++ post.
Proof.
  induction t as [|c t IH]; simpl; [congruence|].
  destruct (isWhiteSpaceOrLineTerminator c); auto.
Qed.

Lemma forallb_rev {A} (f : A -> bool) l : forallb f (rev l) = forallb f l.
Proof.
  induction l as [|a l IH]; simpl; [reflexivity|].
  rewrite forallb_app, IH; simpl. rewrite andb_true_r. apply andb_comm.
Qed.

Lemma trimEnd_white t post :
  forallb isWhiteSpaceOrLineTerminator post = true ->
  trimEnd (t ++ post) = trimEnd t.
Proof.
  intros H. unfold trimEnd. rewrite rev_app_distr, trimStart_white; auto.
  now rewrite forallb_rev.
Qed.

(** White space around a text is gone after [trim]. *)
Lemma trim_padding pre t post :
  forallb isWhiteSpaceOrLineTerminator pre = true ->
  forallb isWhiteSpaceOrLineTerminator post = true ->
  trim (pre ++ t ++ post) = trim t.
Proof.
  intros Hpre Hpost. unfold trim. rewrite trimStart_white by assumption.
  destruct (trimStart t) as [|c r] eqn:Ht.
  - apply trimStart_empty in Ht.
    rewrite trimStart_all_white; [reflexivity|].
    rewrite forallb_app, Ht, Hpost; reflexivity.
  - rewrite trimStart_app by congruence. rewrite Ht.
    now apply trimEnd_white.
Qed.

(** A trimmed text does not start with white space. *)
Lemma trim_head t c r :
  trim t = c :: r -> isWhiteSpaceOrLineTerminator c = false.
Proof.
  unfold trim, trimEnd. intros H.
  destruct (trimStart_suffix (rev (trimStart t))) as [pre Hpre].
  apply (f_equal (@rev _)) in Hpre.
  rewrite rev_involutive, rev_app_distr, H in Hpre.
  simpl in Hpre. eapply trimStart_head; eauto.
Qed.

Lemma trim_all_white t :
  forallb isWhiteSpaceOrLineTerminator t = true -> trim t = [].
Proof. intros H. unfold trim. now rewrite trimStart_all_white. Qed.

(** *** The scanner and the automaton once they have failed *)

Section Parsing.
Context {num : Type} {F64 : Float64 num}.

#[local] Abbreviation JSValue := (JSValue num).

Lemma lex_error_stays s st :
  JSON.mode st = JSON.LError ->
  JSON.mode (fold_left JSON.lex_step s st) = JSON.LError.
Proof.
  revert st; induction s as [|c s IH]; simpl; intros st H; [exact H|].
  apply IH. unfold JSON.lex_step; now rewrite H.
Qed.

Lemma parse_failed_stays (ts : list JSON.Token) :
  fold_left (JSON.parse_step (num := num)) ts JSON.PFailed = JSON.PFailed.
Proof. induction ts; simpl; auto. Qed.

Lemma tokens_of_error c s :
  JSON.mode (JSON.lex_step {| JSON.mode := JSON.LBetween;
                              JSON.emitted := [] |} c) = JSON.LError ->
  JSON.tokens (c :: s) = None.
Proof.
  intros H. unfold JSON.tokens; simpl.
  now rewrite (lex_error_stays s _ H).
Qed.

Lemma lex_step_emitted st c :
  exists new, JSON.emitted (JSON.lex_step st c) = new ++ JSON.emitted st.
Proof.
  unfold JSON.lex_step, JSON.lex_between, JSON.emit, JSON.enter.
  destruct (JSON.mode st);
    repeat match goal with
      | |- context [if ?b then _ else _] => destruct b
      | |- context [match ?x with _ => _ end] => destruct x
      end;
    cbn [JSON.emitted JSON.mode];
    first [exists []; reflexivity
          |eexists [_]; reflexivity
          |eexists [_; _]; reflexivity].
Qed.

Lemma fold_emitted s st :
  exists new,
    JSON.emitted (fold_left JSON.lex_step s st) = new ++ JSON.emitted st.
Proof.
  revert st; induction s as [|c s IH]; simpl; intros st.
  - exists []; reflexivity.
  - destruct (IH (JSON.lex_step st c)) as [new1 H1].
    destruct (lex_step_emitted st c) as [new2 H2].
    exists (new1 ++ new2). now rewrite H1, H2, app_assoc.
Qed.

(** The first token stays the first. *)
Lemma tokens_first c s t ts :
  JSON.lex_step {| JSON.mode := JSON.LBetween; JSON.emitted := [] |} c
  = {| JSON.mode := JSON.LBetween; JSON.emitted := [t] |} ->
  JSON.tokens (c :: s) = Some ts ->
  exists ts', ts = t :: ts'.
Proof.
  intros Hc. unfold JSON.tokens; simpl. rewrite Hc.
  destruct (fold_emitted s {| JSON.mode := JSON.LBetween;
                              JSON.emitted := [t] |}) as [new Hnew].
  cbn [JSON.emitted] in Hnew. rewrite Hnew.
  destruct (JSON.mode _); try discriminate.
  - intros H; injection H as <-.
    rewrite rev_app_distr; simpl; eauto.
  - destruct (JSON.number_complete part); [|discriminate].
    intros H; injection H as <-.
    simpl. rewrite rev_app_distr; simpl; eauto.
Qed.

(** A text that starts with a character no JSON value starts with is
    no JSON text. *)
Lemma not_a_value_start text c r :
  trim text = c :: r ->
  starts_json_value c = false ->
  JSON.parse (num := num) (trim text) = inl SyntaxError.
Proof.
  intros Htrim Hstart.
  pose proof (trim_head _ _ _ Htrim) as Hwhite.
  rewrite Htrim. unfold JSON.parse.
  unfold starts_json_value in Hstart.
  repeat (apply orb_false_iff in Hstart as [Hstart ?]).
  assert (Hjw : (c =? 9) || (c =? 10) || (c =? 13) || (c =? 32) = false).
  { unfold isWhiteSpaceOrLineTerminator in Hwhite.
    repeat (apply orb_false_iff in Hwhite as [Hwhite ?]).
    repeat (apply orb_false_iff; split); assumption. }
  assert (Hzero : (c =? 48) = false).
  { destruct (N.eqb_spec c 48) as [->|]; [discriminate|reflexivity]. }
  assert (Hlex : JSON.lex_step {| JSON.mode := JSON.LBetween;
                                  JSON.emitted := [] |} c
                 = JSON.lex_between c {| JSON.mode := JSON.LBetween;
                                         JSON.emitted := [] |})
    by reflexivity.
  unfold JSON.lex_between in Hlex. rewrite Hjw in Hlex.
  repeat match type of Hlex with
         | context [if ?b then _ else _] =>
             match goal with
             | H : b = false |- _ => rewrite H in Hlex
             end
         end.
  destruct (c =? 125) eqn:E1;
    [|destruct (c =? 93) eqn:E2;
      [|destruct (c =? 58) eqn:E3; [|destruct (c =? 44) eqn:E4]]];
    try (destruct (JSON.tokens (c :: r)) as [ts|] eqn:Hts; [|reflexivity];
         destruct (tokens_first c r _ ts Hlex Hts) as [ts' ->];
         simpl; now rewrite parse_failed_stays).
  rewrite tokens_of_error; [reflexivity|]. now rewrite Hlex.
Qed.

End Parsing.

Section Handler.
Context {num : Type} {F64 : Float64 num} {M : ModelClient}.

#[local] Abbreviation JSValue := (JSValue num).
#[local] Abbreviation World := (World num M).

(** A planner text that does not parse ends the request. *)
Lemma unparsed_text_stops (req_body : JSValue) (w : World)
  (p1 t1 : JSString) (rest : list Call) (e : JSError) :
  calls (handle req_body w) = calls w ++ call p1 (inr t1) :: rest ->
  JSON.parse (num := num) (trim t1) = inl e ->
  rest = []
  /\ sent (handle req_body w)
     = sent w ++ [{| status := 500; body := internal_server_error |}].
Proof.
  intros Hcalls Hparse.
  revert Hcalls. ways req_body w; intros Hcalls.
  - made Hcalls; discriminate.
  - made Hcalls; discriminate.
  - destruct Hpipe; made Hcalls; try discriminate;
      injection Hcalls; intros; subst; try congruence.
    split; reflexivity.
Qed.

(** X11: an empty planner text, or one of white space only, is a
    malformed plan: the request stops after the planner call and is
    answered 500. *)
Theorem blank_planner_text_fails (req_body : JSValue) (w : World)
  (p1 t1 : JSString) (rest : list Call) :
  calls (handle req_body w) = calls w ++ call p1 (inr t1) :: rest ->
  forallb isWhiteSpaceOrLineTerminator t1 = true ->
  rest = []
  /\ sent (handle req_body w)
     = sent w ++ [{| status := 500; body := internal_server_error |}].
Proof.
  intros Hcalls Hblank.
  eapply unparsed_text_stops; eauto.
  rewrite trim_all_white by assumption. reflexivity.
Qed.

(** X12: a planner text whose first character after trimming cannot
    start a JSON value (a markdown fence, a word of prose other than
    one in t, f or n, a closing bracket) is a malformed plan: the
    request stops after the planner call and is answered 500. *)
Theorem unstartable_planner_text_fails (req_body : JSValue) (w : World)
  (p1 t1 : JSString) (rest : list Call) (c : code_unit) (r : JSString) :
  calls (handle req_body w) = calls w ++ call p1 (inr t1) :: rest ->
  trim t1 = c :: r ->
  starts_json_value c = false ->
  rest = []
  /\ sent (handle req_body w)
     = sent w ++ [{| status := 500; body := internal_server_error |}].
Proof.
  intros Hcalls Htrim Hstart.
  eapply unparsed_text_stops; eauto.
  eapply not_a_value_start; eauto.
Qed.

(** X14: nothing in the message is escaped, so the planner prompt does
    not tell where the message ends.  A message that closes the quote
    and opens a PREVIOUS UI section of its own renders the prompt of a
    shorter message with a longer previous code. *)
Theorem planner_prompt_is_ambiguous (x y z : JSString) (c : code_unit) :
  plannerPrompt (num := num)
    (JString (x ++ DQ ++ previous_ui_heading ++ y)) (JString (c :: z))
  = plannerPrompt (JString x)
      (JString (y ++ DQ ++ previous_ui_heading ++ c :: z))
  /\ x ++ DQ ++ previous_ui_heading ++ y <> x
  /\ exists text,
       plannerPrompt (num := num) (JString x)
         (JString (y ++ DQ ++ previous_ui_heading ++ c :: z))
       = inr text.
Proof.
  assert (Htruthy : ToBoolean (num := num)
                      (JString (y ++ DQ ++ previous_ui_heading ++ c :: z))
                    = true)
    by (destruct y; reflexivity).
  unfold plannerPrompt, previous_ui, logical_or.
  rewrite Htruthy. cbn [ToBoolean ToString].
  split; [|split; [|eauto]].
  - unfold quoted. f_equal. repeat rewrite <- app_assoc. reflexivity.
  - intros H. apply (f_equal (@List.length _)) in H.
    rewrite !length_app in H. simpl in H. lia.
Qed.

(** X15: a request whose message or previous code cannot be converted
    to a string (an object with a toString property of its own, or an
    array holding one) passes the guard when the message is truthy,
    but no prompt is rendered: it is answered 500 without any call. *)
Theorem unprintable_fields_fail (req_body message previousCode : JSValue)
  (w : World) (e : JSError) :
  destructure_body req_body = inr (message, previousCode) ->
  ToBoolean message = true ->
  ToString message = inl e
  \/ ToString (previous_ui previousCode) = inl e ->
  calls (handle req_body w) = calls w
  /\ model (handle req_body w) = model w
  /\ sent (handle req_body w)
     = sent w ++ [{| status := 500; body := internal_server_error |}].
Proof.
  intros Hbody Htruthy Hthrows.
  assert (Hp : exists e', plannerPrompt message previousCode = inl e').
  { unfold plannerPrompt. destruct Hthrows as [-> | H]; [eauto|].
    destruct (ToString message); [eauto|]. rewrite H; eauto. }
  destruct Hp as [e' Hp].
  ways req_body w; try congruence.
  rewrite Hbody in Hd; injection Hd as <- <-.
  destruct Hpipe; try congruence.
  unfold after; cbn [calls model sent]. rewrite app_nil_r. auto.
Qed.

End Handler.

End PlannerTextFacts.

(** ** JSON.stringify and JSON.parse, one after the other *)

Module JSONFacts.
Import JS JSON JSONShape JSONTexts.

(** *** Array indices *)

Lemma decimal_value_digits s : forall acc,
  forallb isDigit s = true ->
  decimal_value acc s
  = acc * 10 ^ N.of_nat (List.length s) + decimal_value 0 s
  /\ decimal_value 0 s < 10 ^ N.of_nat (List.length s).
Proof.
  induction s as [|c s IH]; intros acc H.
  - simpl. split; lia.
  - cbn [forallb] in H. apply andb_true_iff in H as [Hc Hs].
    unfold isDigit in Hc. apply andb_true_iff in Hc as [Hlo Hhi].
    apply N.leb_le in Hlo, Hhi.
    cbn [decimal_value List.length].
    destruct (IH (10 * acc + (c - 48)) Hs) as [E1 _].
    destruct (IH (10 * 0 + (c - 48)) Hs) as [E2 B].
    rewrite E1, E2.
    replace (N.of_nat (S (List.length s)))
      with (N.succ (N.of_nat (List.length s))) by lia.
    rewrite N.pow_succ_r'.
    set (p := 10 ^ N.of_nat (List.length s)) in *.
    split; nia.
Qed.

(** Digits of the same length and value are the same digits. *)
Lemma digits_same_value a : forall b,
  List.length a = List.length b ->
  forallb isDigit a = true -> forallb isDigit b = true ->
  decimal_value 0 a = decimal_value 0 b -> a = b.
Proof.
  induction a as [|c a IH]; intros [|d b] Hlen Ha Hb Hv;
    try discriminate; [reflexivity|].
  injection Hlen as Hlen.
  cbn [forallb] in Ha, Hb.
  apply andb_true_iff in Ha as [Hc Ha], Hb as [Hd Hb].
  cbn [decimal_value] in Hv.
  destruct (decimal_value_digits a (10 * 0 + (c - 48)) Ha) as [E1 _].
  destruct (decimal_value_digits b (10 * 0 + (d - 48)) Hb) as [E2 _].
  destruct (decimal_value_digits a 0 Ha) as [_ B1].
  destruct (decimal_value_digits b 0 Hb) as [_ B2].
  rewrite E1, E2, Hlen in Hv. rewrite Hlen in B1.
  unfold isDigit in Hc, Hd.
  apply andb_true_iff in Hc as [Hc1 Hc2], Hd as [Hd1 Hd2].
  apply N.leb_le in Hc1, Hc2, Hd1, Hd2.
  set (p := 10 ^ N.of_nat (List.length b)) in *.
  assert (c = d) by nia. subst d.
  f_equal. apply IH; auto. nia.
Qed.

(** What an array index looks like: the digit zero, or digits that
    start with none. *)
Lemma array_index_shape key i :
  array_index key = Some i ->
  (key = [48] /\ i = 0)
  \/ (exists c r, key = c :: r /\ 49 <= c /\ forallb isDigit key = true
                  /\ i = decimal_value 0 key).
Proof.
  destruct key as [|c r]; [discriminate|].
  unfold array_index.
  destruct (N.eqb_spec c 48) as [->|Hc].
  - destruct r; [intros H; injection H as <-; now left|discriminate].
  - assert (Hgen : (if (49 <=? c) && (c <=? 57) && forallb isDigit (c :: r)
                       && Nat.leb (List.length (c :: r)) 10
                       && (decimal_value 0 (c :: r) <=? 4294967294)
                    then Some (decimal_value 0 (c :: r)) else None) = Some i ->
                   exists c' r', c :: r = c' :: r' /\ 49 <= c'
                     /\ forallb isDigit (c :: r) = true
                     /\ i = decimal_value 0 (c :: r)).
    { destruct ((49 <=? c) && (c <=? 57) && forallb isDigit (c :: r)
                && Nat.leb (List.length (c :: r)) 10
                && (decimal_value 0 (c :: r) <=? 4294967294)) eqn:E;
        [|discriminate].
      intros H; injection H as <-.
      repeat (apply andb_true_iff in E as [E ?]).
      apply N.leb_le in E. eauto 10. }
    intros H. right. apply Hgen.
    destruct c as [|[p|p|]]; try exact H;
      destruct p as [p|p|]; try exact H;
      destruct p as [p|p|]; try exact H;
      destruct p as [p|p|]; try exact H;
      destruct p as [p|p|]; try exact H;
      destruct p as [p|p|]; try exact H; congruence.
Qed.

Lemma leading_digit_value c r :
  49 <= c -> forallb isDigit (c :: r) = true ->
  10 ^ N.of_nat (List.length r) <= decimal_value 0 (c :: r)
  /\ decimal_value 0 (c :: r) < 10 ^ N.of_nat (List.length (c :: r)).
Proof.
  intros Hc H. split; [|now apply decimal_value_digits].
  cbn [forallb] in H. apply andb_true_iff in H as [_ Hr].
  cbn [decimal_value].
  destruct (decimal_value_digits r (10 * 0 + (c - 48)) Hr) as [E _].
  rewrite E. clear E. change code_unit with N in *.
  match goal with
  | |- context [10 ^ ?e] => remember (10 ^ e) as p eqn:Hp
  end.
  remember (10 * 0 + (c - 48)) as d eqn:Hdef.
  assert (Hd : 1 <= d) by lia.
  assert (p <= d * p).
  { rewrite <- (N.mul_1_l p) at 1. apply N.mul_le_mono_r. exact Hd. }
  clear Hp Hdef. eapply N.le_trans; [exact H|apply N.le_add_r].
Qed.

(** Two keys with the same array index are the same key. *)
Lemma array_index_inj a b i :
  array_index a = Some i -> array_index b = Some i -> a = b.
Proof.
  intros Ha Hb.
  apply array_index_shape in Ha, Hb.
  destruct Ha as [[-> ->]|(c & r & -> & Hc & Hda & ->)],
           Hb as [[-> Hi]|(d & q & -> & Hd & Hdb & Hi)].
  - reflexivity.
  - pose proof (leading_digit_value d q Hd Hdb) as [L _].
    pose proof (N.pow_nonzero 10 (N.of_nat (List.length q)) ltac:(lia)).
    simpl List.length in *. change code_unit with N in *. lia.
  - pose proof (leading_digit_value c r Hc Hda) as [L _].
    pose proof (N.pow_nonzero 10 (N.of_nat (List.length r)) ltac:(lia)).
    simpl List.length in *. change code_unit with N in *. lia.
  - pose proof (leading_digit_value c r Hc Hda) as [L1 U1].
    pose proof (leading_digit_value d q Hd Hdb) as [L2 U2].
    assert (Hlen : List.length r = List.length q).
    { destruct (Nat.lt_trichotomy (List.length r) (List.length q))
        as [Hlt|[Heq|Hlt]]; [exfalso|exact Heq|exfalso].
      - assert (10 ^ N.of_nat (List.length (c :: r))
                <= 10 ^ N.of_nat (List.length q))
          by (apply N.pow_le_mono_r; simpl List.length; lia).
        change code_unit with N in *. lia.
      - assert (10 ^ N.of_nat (List.length (d :: q))
                <= 10 ^ N.of_nat (List.length r))
          by (apply N.pow_le_mono_r; simpl List.length; lia).
        change code_unit with N in *. lia. }
    apply digits_same_value; simpl; auto.
Qed.

(** *** The scanner on a quoted string *)

Lemma hex_recompose c :
  c < 65536 ->
  16 * (16 * (16 * (16 * 0 + (c / 4096) mod 16) + (c / 256) mod 16)
        + (c / 16) mod 16) + c mod 16 = c.
Proof.
  intros H.
  pose proof (N.div_mod c 16 ltac:(lia)).
  pose proof (N.div_mod (c / 16) 16 ltac:(lia)).
  pose proof (N.div_mod (c / 16 / 16) 16 ltac:(lia)).
  rewrite !N.Div0.div_div in *.
  change (16 * 16) with 256 in *. change (256 * 16) with 4096 in *.
  assert ((c / 4096) mod 16 = c / 4096).
  { apply N.mod_small. apply N.Div0.div_lt_upper_bound. lia. }
  lia.
Qed.

Lemma hex_value_digit d : d < 16 -> hex_value (hex_digit d) = Some d.
Proof.
  intros H.
  assert (Hd : d = 0 \/ d = 1 \/ d = 2 \/ d = 3 \/ d = 4 \/ d = 5 \/ d = 6
               \/ d = 7 \/ d = 8 \/ d = 9 \/ d = 10 \/ d = 11 \/ d = 12
               \/ d = 13 \/ d = 14 \/ d = 15) by lia.
  repeat (destruct Hd as [->|Hd]; [reflexivity|]). subst; reflexivity.
Qed.

Lemma lex_unicode_escape c acc E rest :
  c < 65536 ->
  fold_left lex_step (UnicodeEscape c ++ rest) (scanning (LInString acc) E)
  = fold_left lex_step rest (scanning (LInString (c :: acc)) E).
Proof.
  intros Hc. unfold UnicodeEscape.
  cbn [app fold_left].
  change (lex_step (scanning (LInString acc) E) 92)
    with (scanning (LEscape acc) E).
  change (lex_step (scanning (LEscape acc) E) 117)
    with (scanning (LUnicode acc 0 0) E).
  assert (Hstep : forall read value d,
             d < 16 ->
             lex_step (scanning (LUnicode acc read value) E) (hex_digit d)
             = match read with
               | 3%nat => scanning (LInString ((16 * value + d) :: acc)) E
               | _ => scanning (LUnicode acc (S read) (16 * value + d)) E
               end).
  { intros read value d Hd. unfold lex_step, scanning; cbn [mode].
    rewrite hex_value_digit by assumption.
    destruct read as [|[|[|[|?]]]]; reflexivity. }
  rewrite !Hstep by (apply N.mod_lt; lia). cbn iota.
  now rewrite hex_recompose.
Qed.

Lemma lex_plain c acc E :
  32 <= c -> c <> 34 -> c <> 92 ->
  lex_step (scanning (LInString acc) E) c
  = scanning (LInString (c :: acc)) E.
Proof.
  intros H1 H2 H3. unfold lex_step, scanning; cbn [mode].
  apply N.eqb_neq in H2, H3. rewrite H2, H3.
  assert (Hlt : (c <? 32) = false) by (apply N.ltb_ge; lia).
  now rewrite Hlt.
Qed.

Lemma lex_escape_unit c acc E rest :
  fold_left lex_step (escape_unit c ++ rest) (scanning (LInString acc) E)
  = fold_left lex_step rest (scanning (LInString (c :: acc)) E).
Proof.
  unfold escape_unit.
  repeat match goal with
    | |- context [if ?x =? ?k then _ else _] =>
        destruct (N.eqb_spec x k) as [->|?]; [reflexivity|]
    end.
  destruct ((c <? 32) || isLeadingSurrogate c || isTrailingSurrogate c)
    eqn:Hu.
  - apply lex_unicode_escape.
    unfold isLeadingSurrogate, isTrailingSurrogate in Hu.
    repeat (apply orb_true_iff in Hu as [Hu|Hu]).
    + apply N.ltb_lt in Hu; lia.
    + apply andb_true_iff in Hu as [_ Hu]; apply N.leb_le in Hu; lia.
    + apply andb_true_iff in Hu as [_ Hu]; apply N.leb_le in Hu; lia.
  - repeat (apply orb_false_iff in Hu as [Hu _]).
    apply N.ltb_ge in Hu.
    cbn [app fold_left]. now rewrite lex_plain.
Qed.

Lemma lex_quote_units s : forall acc E rest,
  fold_left lex_step (quote_units s ++ DQ ++ rest)
    (scanning (LInString acc) E)
  = fold_left lex_step rest
      (scanning LBetween (TString (rev acc ++ s) :: E)).
Proof.
  induction s as [s IH] using (induction_ltof1 _ (@List.length _)).
  unfold ltof in IH. intros acc E rest.
  destruct s as [|c [|d s]].
  - cbn [quote_units app fold_left DQ]. now rewrite app_nil_r.
  - cbn [quote_units]. rewrite lex_escape_unit. reflexivity.
  - cbn [quote_units].
    destruct (isLeadingSurrogate c && isTrailingSurrogate d) eqn:Hpair.
    + apply andb_true_iff in Hpair as [Hc Hd].
      unfold isLeadingSurrogate in Hc. unfold isTrailingSurrogate in Hd.
      apply andb_true_iff in Hc as [Hc _], Hd as [Hd _].
      apply N.leb_le in Hc, Hd.
      cbn [app fold_left].
      rewrite !lex_plain by lia.
      rewrite (IH s ltac:(simpl; lia)). cbn [rev]. f_equal. f_equal.
      now rewrite <- !app_assoc.
    + rewrite <- app_assoc, lex_escape_unit.
      rewrite (IH (d :: s) ltac:(simpl; lia)). cbn [rev]. f_equal. f_equal.
      now rewrite <- app_assoc.
Qed.

(** The scanner reads a quoted string as the string. *)
Lemma lex_QuoteJSONString s E rest :
  fold_left lex_step (QuoteJSONString s ++ rest) (scanning LBetween E)
  = fold_left lex_step rest (scanning LBetween (TString s :: E)).
Proof.
  unfold QuoteJSONString, quoted. rewrite <- !app_assoc.
  cbn [DQ app fold_left].
  change (lex_step (scanning LBetween E) 34) with (scanning (LInString []) E).
  apply (lex_quote_units s [] E rest).
Qed.

Section Values.
Context {num : Type} {F64 : Float64 num}.

#[local] Abbreviation JSValue := (JSValue num).

(** Induction on a value, its elements and the values of its
    properties. *)
Lemma value_ind (P : JSValue -> Prop) :
  P JUndefined -> P JNull -> (forall b, P (JBool b)) ->
  (forall n, P (JNumber n)) -> (forall s, P (JString s)) ->
  (forall items, Forall P items -> P (JArray items)) ->
  (forall props, Forall (fun kx => P (snd kx)) props -> P (JObject props)) ->
  forall v, P v.
Proof.
  intros Hu Hn Hb Hnum Hs Harr Hobj.
  fix IH 1.
  intros [ | |b|n|s|items|props];
    [exact Hu|exact Hn|apply Hb|apply Hnum|apply Hs| | ].
  - apply Harr. induction items as [|x r IHr]; constructor;
      [apply IH|exact IHr].
  - apply Hobj. induction props as [|[k x] r IHr]; constructor;
      [apply IH|exact IHr].
Qed.

Lemma well_formed_array (items : list JSValue) :
  well_formed (JArray items) <-> Forall (well_formed (num := num)) items.
Proof.
  simpl. induction items as [|x r IH]; split; intros H.
  - constructor.
  - exact I.
  - destruct H as [Hx Hr]. constructor; [exact Hx|now apply IH].
  - inversion H; subst. split; [assumption|now apply IH].
Qed.

Lemma well_formed_object (props : list (JSString * JSValue)) :
  well_formed (JObject props)
  <-> enumeration_order (map fst props) = true
      /\ Forall (fun kx => well_formed (snd kx)) props.
Proof.
  simpl. apply and_iff_compat_l.
  induction props as [|x r IH]; split; intros H.
  - constructor.
  - exact I.
  - destruct H as [Hx Hr]. constructor; [exact Hx|now apply IH].
  - inversion H; subst. split; [assumption|now apply IH].
Qed.


Lemma numbers_read_back_array (items : list JSValue) :
  numbers_read_back (JArray items) <-> Forall numbers_read_back items.
Proof.
  simpl. induction items as [|x r IH]; split; intros H.
  - constructor.
  - exact I.
  - destruct H as [Hx Hr]. constructor; [exact Hx|now apply IH].
  - inversion H; subst. split; [assumption|now apply IH].
Qed.

Lemma numbers_read_back_object (props : list (JSString * JSValue)) :
  numbers_read_back (JObject props)
  <-> Forall (fun kx => numbers_read_back (snd kx)) props.
Proof.
  simpl. induction props as [|x r IH]; split; intros H.
  - constructor.
  - exact I.
  - destruct H as [Hx Hr]. constructor; [exact Hx|now apply IH].
  - inversion H; subst. split; [assumption|now apply IH].
Qed.

(** *** Keys in enumeration order are kept by CreateDataProperty *)

Lemma distinct_app_absent (a b : list JSString) key :
  distinct (a ++ key :: b) = true ->
  forallb (fun k => negb (str_eqb k key)) a = true.
Proof.
  induction a as [|k a IH]; simpl; [reflexivity|].
  intros H; apply andb_true_iff in H as [Hk Ha].
  rewrite IH by assumption. rewrite andb_true_r.
  rewrite existsb_app in Hk. apply negb_true_iff, orb_false_iff in Hk.
  destruct Hk as [_ Hk]. simpl in Hk. apply orb_false_iff in Hk.
  now rewrite (proj1 Hk).
Qed.

Lemma has_own_property_absent (props : list (JSString * JSValue)) key :
  forallb (fun k => negb (str_eqb k key)) (map fst props) = true ->
  has_own_property props key = false.
Proof.
  unfold has_own_property.
  induction props as [|[k x] props IH]; simpl; [reflexivity|].
  intros H; apply andb_true_iff in H as [Hk Hr].
  apply negb_true_iff in Hk. rewrite Hk. auto.
Qed.

Lemma ascending_named_tail (a b : list JSString) key above :
  ascending above (a ++ key :: b) = true ->
  is_named key = false ->
  forallb (fun k => negb (is_named k)) a = true.
Proof.
  revert above; induction a as [|k a IH]; simpl; intros above H Hkey;
    [reflexivity|].
  unfold is_named at 1. destruct (array_index k) as [j|] eqn:Hj.
  - apply andb_true_iff in H as [_ H]. simpl. eauto.
  - rewrite forallb_app in H. apply andb_true_iff in H as [_ H].
    simpl in H. rewrite Hkey in H. discriminate.
Qed.

Lemma ascending_above (a b : list JSString) key i l :
  ascending (Some l) (a ++ key :: b) = true ->
  array_index key = Some i -> l < i.
Proof.
  revert l; induction a as [|k a IH]; simpl; intros l H Hi.
  - rewrite Hi in H. apply andb_true_iff in H as [H _].
    now apply N.ltb_lt.
  - destruct (array_index k) as [j|] eqn:Hj.
    + apply andb_true_iff in H as [Hl H]. apply N.ltb_lt in Hl.
      specialize (IH _ H Hi). lia.
    + rewrite forallb_app in H. apply andb_true_iff in H as [_ H].
      simpl in H. unfold is_named in H. rewrite Hi in H. discriminate.
Qed.

Lemma insert_index_last (done : list (JSString * JSValue)) b key i v above :
  ascending above (map fst done ++ key :: b) = true ->
  array_index key = Some i ->
  insert_index i key v done = done ++ [(key, v)].
Proof.
  revert above; induction done as [|[k x] done IH]; simpl; intros above H Hi;
    [reflexivity|].
  destruct (array_index k) as [j|] eqn:Hj.
  - apply andb_true_iff in H as [_ H].
    pose proof (ascending_above _ _ _ _ _ H Hi) as Hlt.
    apply N.ltb_lt in Hlt. rewrite Hlt. f_equal. eauto.
  - rewrite forallb_app in H. apply andb_true_iff in H as [_ H].
    simpl in H. unfold is_named in H. rewrite Hi in H. discriminate.
Qed.

Lemma CreateDataProperty_last (done : list (JSString * JSValue)) b key v :
  enumeration_order (map fst done ++ key :: b) = true ->
  CreateDataProperty done key v = done ++ [(key, v)].
Proof.
  unfold enumeration_order. intros H.
  apply andb_true_iff in H as [Hasc Hdis].
  unfold CreateDataProperty.
  rewrite has_own_property_absent by (eapply distinct_app_absent; eauto).
  destruct (array_index key) as [i|] eqn:Hi; [|reflexivity].
  eapply insert_index_last; eauto.
Qed.

(** *** CreateDataProperty keeps the enumeration order *)

Lemma str_eqb_sym (a b : JSString) : str_eqb a b = str_eqb b a.
Proof.
  destruct (Facts.str_eqb_spec a b), (Facts.str_eqb_spec b a); congruence.
Qed.

Lemma replace_value_keys (props : list (JSString * JSValue)) key v :
  map fst (replace_value key v props) = map fst props.
Proof.
  induction props as [|[k x] props IH]; simpl; [reflexivity|].
  destruct (str_eqb k key); simpl; congruence.
Qed.

Lemma absent_has_own_property (props : list (JSString * JSValue)) key :
  has_own_property props key = false ->
  forallb (fun k => negb (str_eqb k key)) (map fst props) = true.
Proof.
  unfold has_own_property.
  induction props as [|[k x] props IH]; simpl; [reflexivity|].
  destruct (str_eqb k key); [discriminate|]. auto.
Qed.

Lemma ascending_named_last keys key above :
  is_named key = true ->
  ascending above keys = true ->
  ascending above (keys ++ [key]) = true.
Proof.
  intros Hkey. revert above.
  induction keys as [|k keys IH]; simpl; intros above H.
  - unfold is_named in Hkey. destruct (array_index key); [discriminate|].
    reflexivity.
  - destruct (array_index k).
    + apply andb_true_iff in H as [Hl H]. rewrite Hl. simpl. auto.
    + rewrite forallb_app, H. simpl. now rewrite Hkey.
Qed.

Lemma distinct_last keys key :
  distinct keys = true ->
  forallb (fun k => negb (str_eqb k key)) keys = true ->
  distinct (keys ++ [key]) = true.
Proof.
  induction keys as [|k keys IH]; simpl; intros H Habs; [reflexivity|].
  apply andb_true_iff in H as [Hk H], Habs as [Hkk Habs].
  rewrite existsb_app. simpl.
  apply negb_true_iff in Hk, Hkk. rewrite Hk, Hkk. simpl. auto.
Qed.

Lemma insert_index_member f (props : list (JSString * JSValue)) i key v :
  existsb f (map fst (insert_index i key v props))
  = f key || existsb f (map fst props).
Proof.
  induction props as [|[k x] props IH]; simpl; [reflexivity|].
  destruct (array_index k) as [j|]; [|reflexivity].
  destruct (j <? i); [|reflexivity].
  simpl. rewrite IH. destruct (f key), (f k); reflexivity.
Qed.

Lemma distinct_insert (props : list (JSString * JSValue)) i key v :
  distinct (map fst props) = true ->
  forallb (fun k => negb (str_eqb k key)) (map fst props) = true ->
  distinct (map fst (insert_index i key v props)) = true.
Proof.
  induction props as [|[k x] props IH]; simpl; intros H Habs;
    [reflexivity|].
  apply andb_true_iff in H as [Hk H], Habs as [Hkk Habs].
  assert (Hfront : distinct (key :: k :: map fst props) = true).
  { simpl. rewrite Hk, H. rewrite (str_eqb_sym key k).
    apply negb_true_iff in Hkk. rewrite Hkk. simpl.
    rewrite andb_true_r. apply negb_true_iff.
    clear -Habs. induction (map fst props) as [|k' l IHl]; [reflexivity|].
    simpl in *. apply andb_true_iff in Habs as [Hk' Habs].
    apply negb_true_iff in Hk'. rewrite str_eqb_sym, Hk'. auto. }
  destruct (array_index k) as [j|]; [|exact Hfront].
  destruct (j <? i); [|exact Hfront].
  simpl. rewrite insert_index_member, IH by assumption.
  apply negb_true_iff in Hk, Hkk. now rewrite Hk, Hkk.
Qed.

Lemma ascending_insert (props : list (JSString * JSValue)) i key v above :
  array_index key = Some i ->
  match above with None => True | Some l => l < i end ->
  ascending above (map fst props) = true ->
  forallb (fun k => negb (str_eqb k key)) (map fst props) = true ->
  ascending above (map fst (insert_index i key v props)) = true.
Proof.
  intros Hi. revert above.
  assert (Hfront : forall above rest,
    match above with None => True | Some l => l < i end ->
    ascending (Some i) rest = true ->
    ascending above (key :: rest) = true).
  { intros above rest Habove H. cbn [ascending]. rewrite Hi, H.
    rewrite andb_true_r. destruct above; [now apply N.ltb_lt|reflexivity]. }
  induction props as [|[k x] props IH]; intros above Habove H Habs;
    cbn [map fst insert_index].
  - now apply Hfront.
  - cbn [map fst ascending forallb] in H, Habs.
    apply andb_true_iff in Habs as [Hk Habs].
    destruct (array_index k) as [j|] eqn:Hj.
    + apply andb_true_iff in H as [Hl H].
      destruct (j <? i) eqn:Hlt; cbn [map fst].
      * cbn [ascending]. rewrite Hj, Hl. cbn [andb].
        apply IH; auto. now apply N.ltb_lt.
      * apply Hfront; [assumption|].
        cbn [map fst ascending]. rewrite Hj, H. rewrite andb_true_r.
        assert (j <> i).
        { intros ->. rewrite (array_index_inj _ _ _ Hj Hi) in Hk.
          destruct (Facts.str_eqb_spec key key); [discriminate|congruence]. }
        apply N.ltb_ge in Hlt. apply N.ltb_lt. lia.
    + apply Hfront; [assumption|].
      cbn [map fst ascending]. now rewrite Hj.
Qed.

Lemma CreateDataProperty_order (props : list (JSString * JSValue)) key v :
  enumeration_order (map fst props) = true ->
  enumeration_order (map fst (CreateDataProperty props key v)) = true.
Proof.
  unfold enumeration_order, CreateDataProperty. intros H.
  apply andb_true_iff in H as [Hasc Hdis].
  destruct (has_own_property props key) eqn:Hown.
  - now rewrite replace_value_keys, Hasc, Hdis.
  - apply absent_has_own_property in Hown.
    destruct (array_index key) as [i|] eqn:Hi.
    + rewrite ascending_insert, distinct_insert by (auto; exact I).
      reflexivity.
    + rewrite map_app. simpl.
      rewrite ascending_named_last, distinct_last; auto.
      unfold is_named. now rewrite Hi.
Qed.

Lemma CreateDataProperty_values (P : JSValue -> Prop)
  (props : list (JSString * JSValue)) key v :
  Forall (fun kx => P (snd kx)) props -> P v ->
  Forall (fun kx => P (snd kx)) (CreateDataProperty props key v).
Proof.
  intros Hall Hv. unfold CreateDataProperty.
  destruct (has_own_property props key).
  - induction Hall as [|[k x] r Hx Hr IH]; simpl; [constructor|].
    destruct (str_eqb k key); constructor; auto.
  - destruct (array_index key) as [i|].
    + induction Hall as [|[k x] r Hx Hr IH]; simpl.
      * constructor; [exact Hv|constructor].
      * destruct (array_index k) as [j|];
          [destruct (j <? i)|]; repeat constructor; auto.
    + apply Forall_app; split; [assumption|]. constructor; [exact Hv|constructor].
Qed.

Lemma created_in_order (done todo : list (JSString * JSValue)) :
  enumeration_order (map fst (done ++ todo)) = true ->
  created done todo = done ++ todo.
Proof.
  revert done; induction todo as [|[k x] todo IH]; intros done H.
  - simpl. now rewrite app_nil_r.
  - change (created (CreateDataProperty done k x) todo
            = done ++ (k, x) :: todo).
    assert (H' := H). rewrite map_app in H'. simpl in H'.
    rewrite (CreateDataProperty_last _ _ _ _ H'), IH.
    + now rewrite <- app_assoc.
    + now rewrite <- app_assoc.
Qed.


(** *** The automaton on the tokens of a value *)

Lemma element_tokens_cons x y (r : list JSValue) :
  element_tokens (x :: y :: r)
  = value_tokens x ++ TComma :: element_tokens (y :: r).
Proof. reflexivity. Qed.

Lemma member_tokens_cons kx ky (r : list (JSString * JSValue)) :
  member_tokens (kx :: ky :: r)
  = TString (fst kx) :: TColon :: value_tokens (snd kx)
    ++ TComma :: member_tokens (ky :: r).
Proof. reflexivity. Qed.

Lemma array_open (v : JSValue) stack ts :
  v <> JUndefined ->
  fold_left parse_step (value_tokens v ++ ts) (PArrayOpen stack)
  = fold_left parse_step (value_tokens v ++ ts)
      (PValue (InArray [] :: stack)).
Proof.
  destruct v as [ | |[|]|n|s|items|props]; try reflexivity. congruence.
Qed.

Lemma well_formed_defined (v : JSValue) : well_formed v -> v <> JUndefined.
Proof. destruct v; simpl; congruence || tauto. Qed.

Lemma elements_parse (items : list JSValue) :
  items <> [] ->
  Forall parses items ->
  forall before stack ts,
    fold_left parse_step (element_tokens items ++ ts)
      (PValue (InArray before :: stack))
    = fold_left parse_step ts (finish (JArray (rev before ++ items)) stack).
Proof.
  induction items as [|x [|y r] IH]; intros Hne Hall before stack ts;
    [congruence| |]; inversion Hall as [|? ? Hx Hr]; subst.
  - change (element_tokens [x]) with (value_tokens x ++ [TRightBracket]).
    rewrite <- app_assoc, Hx. reflexivity.
  - rewrite element_tokens_cons, <- app_assoc, Hx. simpl app.
    change (fold_left parse_step (TComma :: ?l) (finish x ?s))
      with (fold_left parse_step l (PValue (InArray (x :: before) :: stack))).
    rewrite IH by (congruence || assumption).
    simpl rev. now rewrite <- app_assoc.
Qed.

Lemma members_parse (todo : list (JSString * JSValue)) :
  todo <> [] ->
  Forall (fun kx => parses (snd kx)) todo ->
  forall done stack ts,
    fold_left parse_step (member_tokens todo ++ ts) (PKey done stack)
    = fold_left parse_step ts (finish (JObject (created done todo)) stack).
Proof.
  induction todo as [|[k x] [|ky r] IH]; intros Hne Hall done stack ts;
    [congruence| |]; inversion Hall as [|? ? Hx Hr]; subst; simpl in Hx.
  - change (member_tokens [(k, x)])
      with (TString k :: TColon :: value_tokens x ++ [TRightBrace]).
    simpl app. simpl fold_left at 1.
    rewrite <- app_assoc, Hx. reflexivity.
  - rewrite member_tokens_cons. simpl fst; simpl snd.
    simpl app. simpl fold_left at 1.
    rewrite <- app_assoc, Hx. simpl app.
    change (fold_left parse_step (TComma :: ?l) (finish x ?s))
      with (fold_left parse_step l
              (PKey (CreateDataProperty done k x) stack)).
    rewrite IH by (congruence || assumption). reflexivity.
Qed.

(** The automaton reads the tokens of a well-formed value as that
    value. *)
Lemma value_tokens_parse (v : JSValue) :
  well_formed v -> numbers_read_back v -> parses v.
Proof.
  induction v as [ | |b|n|s|items IH|props IH] using value_ind;
    intros Hwf Hnum stack ts.
  - destruct Hwf.
  - reflexivity.
  - destruct b; reflexivity.
  - destruct Hnum as (_ & _ & Hread). simpl. now rewrite Hread.
  - reflexivity.
  - apply well_formed_array in Hwf. apply numbers_read_back_array in Hnum.
    assert (Hall : Forall parses items).
    { rewrite Forall_forall in *. auto. }
    change (value_tokens (JArray items))
      with (TLeftBracket :: element_tokens items).
    simpl app. simpl fold_left at 1.
    destruct items as [|x r]; [reflexivity|].
    assert (Hx : x <> JUndefined).
    { inversion Hwf; subst. now apply well_formed_defined. }
    destruct r as [|y r].
    + change (element_tokens [x]) with (value_tokens x ++ [TRightBracket]).
      rewrite <- app_assoc, array_open by assumption.
      rewrite app_assoc.
      now rewrite (elements_parse [x]) by (congruence || assumption).
    + rewrite element_tokens_cons, <- app_assoc, array_open by assumption.
      rewrite app_assoc, <- element_tokens_cons.
      now rewrite elements_parse by (congruence || assumption).
  - apply well_formed_object in Hwf as [Horder Hwf].
    apply numbers_read_back_object in Hnum.
    assert (Hall : Forall (fun kx => parses (snd kx)) props).
    { rewrite Forall_forall in *. auto. }
    change (value_tokens (JObject props))
      with (TLeftBrace :: member_tokens props).
    simpl app. simpl fold_left at 1.
    destruct props as [|[k x] r]; [reflexivity|].
    assert (Hopen : forall ts',
               fold_left parse_step (member_tokens ((k, x) :: r) ++ ts')
                 (PObjectOpen stack)
               = fold_left parse_step (member_tokens ((k, x) :: r) ++ ts')
                   (PKey [] stack)).
    { intros ts'. destruct r; reflexivity. }
    rewrite Hopen, members_parse by (congruence || assumption).
    now rewrite (created_in_order [] _ Horder).
Qed.


(** *** The text of a value *)

Lemma serialize_defined indent (v : JSValue) :
  v <> JUndefined ->
  SerializeJSONProperty indent v = Some (text_at indent v).
Proof.
  intros Hv. unfold text_at.
  destruct (SerializeJSONProperty indent v) eqn:H; [reflexivity|].
  destruct v as [ | |[|]|n|s|[|x r]|props]; try discriminate; try congruence.
  simpl in H.
  match type of H with
  | match ?l with _ => _ end = _ => destruct l; discriminate
  end.
Qed.

Lemma text_at_array indent x (r : list JSValue) :
  text_at indent (JArray (x :: r))
  = lit "[" ++ LF ++ (indent ++ gap)
    ++ join (separator (indent ++ gap)) (map (text_at (indent ++ gap)) (x :: r))
    ++ LF ++ indent ++ lit "]".
Proof. reflexivity. Qed.

Lemma members_defined indent (props : list (JSString * JSValue)) :
  Forall (fun kx => snd kx <> JUndefined) props ->
  flat_map
    (fun kx =>
       match SerializeJSONProperty indent (snd kx) with
       | Some str => [QuoteJSONString (fst kx) ++ lit ":" ++ lit " " ++ str]
       | None => []
       end) props
  = map (member_text indent) props.
Proof.
  induction 1 as [|kx r Hx Hr IH]; [reflexivity|].
  cbn [flat_map map].
  rewrite (serialize_defined _ _ Hx), IH. reflexivity.
Qed.

Lemma text_at_object indent kx (r : list (JSString * JSValue)) :
  Forall (fun kx => snd kx <> JUndefined) (kx :: r) ->
  text_at indent (JObject (kx :: r))
  = lit "{" ++ LF ++ (indent ++ gap)
    ++ join (separator (indent ++ gap))
         (map (member_text (indent ++ gap)) (kx :: r))
    ++ LF ++ indent ++ lit "}".
Proof.
  intros H. unfold text_at. cbn [SerializeJSONProperty].
  rewrite (members_defined _ _ H). reflexivity.
Qed.


(** *** The scanner on the text of a value *)

Lemma tokens_scanned text :
  tokens text = scanned (fold_left lex_step text (scanning LBetween [])).
Proof. reflexivity. Qed.

Lemma lex_white indent rest E :
  forallb Locality.isJSONWhiteSpace indent = true ->
  fold_left lex_step (indent ++ rest) (scanning LBetween E)
  = fold_left lex_step rest (scanning LBetween E).
Proof.
  induction indent as [|c indent IH]; [reflexivity|].
  cbn [forallb app fold_left]. intros H.
  apply andb_true_iff in H as [Hc Hi].
  replace (lex_step (scanning LBetween E) c) with (scanning LBetween E);
    [auto|].
  unfold lex_step, lex_between, scanning; cbn [mode].
  unfold Locality.isJSONWhiteSpace in Hc. now rewrite Hc.
Qed.

Lemma white_gap indent :
  forallb Locality.isJSONWhiteSpace indent = true ->
  forallb Locality.isJSONWhiteSpace (indent ++ gap) = true.
Proof. intros H. rewrite forallb_app, H. reflexivity. Qed.

Lemma scans_anywhere (v : JSValue) :
  (forall indent E rest,
     forallb Locality.isJSONWhiteSpace indent = true ->
     fold_left lex_step (text_at indent v ++ rest) (scanning LBetween E)
     = fold_left lex_step rest
         (scanning LBetween (rev (value_tokens v) ++ E))) ->
  scans v.
Proof.
  intros H indent E Hi. split.
  - intros c rest _. now apply H.
  - specialize (H indent E [] Hi). rewrite app_nil_r in H.
    now rewrite H.
Qed.

(** **** Numbers *)

Lemma lex_number_start c p E :
  number_start c = Some p ->
  lex_step (scanning LBetween E) c = scanning (LInNumber p [c]) E.
Proof.
  unfold number_start, isDigit.
  destruct (N.eqb_spec c 45) as [->|H45];
    [intros H; injection H as <-; reflexivity|].
  destruct (N.eqb_spec c 48) as [->|H48];
    [intros H; injection H as <-; reflexivity|].
  destruct ((48 <=? c) && (c <=? 57)) eqn:Hd; [|discriminate].
  intros H; injection H as <-.
  apply andb_true_iff in Hd as [Hlo Hhi].
  apply N.leb_le in Hlo, Hhi.
  unfold lex_step, lex_between, scanning, enter, isDigit; cbn [mode emitted].
  repeat match goal with
    | |- context [?x =? ?k] =>
        destruct (N.eqb_spec x k) as [?|_]; [lia|]
    end.
  cbn [orb].
  replace (48 <=? c) with true by (symmetry; apply N.leb_le; lia).
  replace (c <=? 57) with true by (symmetry; apply N.leb_le; lia).
  reflexivity.
Qed.

Lemma lex_number_run l : forall p p' acc E rest,
  number_run p l = Some p' ->
  fold_left lex_step (l ++ rest) (scanning (LInNumber p acc) E)
  = fold_left lex_step rest (scanning (LInNumber p' (rev l ++ acc)) E).
Proof.
  induction l as [|c l IH]; intros p p' acc E rest; cbn [number_run].
  - intros H; injection H as <-. reflexivity.
  - destruct (number_next p c) as [q|] eqn:Hq; [|discriminate].
    intros H. cbn [app fold_left].
    replace (lex_step (scanning (LInNumber p acc) E) c)
      with (scanning (LInNumber q (c :: acc)) E)
      by (unfold lex_step, scanning; cbn [mode]; now rewrite Hq).
    rewrite (IH _ _ _ _ _ H). cbn [rev]. now rewrite <- app_assoc.
Qed.

Lemma number_ends p c : c = 44 \/ c = 10 -> number_next p c = None.
Proof. intros [-> | ->]; destruct p; reflexivity. Qed.

Lemma scans_number (n : num) :
  numbers_read_back (JNumber n) -> scans (JNumber n).
Proof.
  intros (Hfinite & Hliteral & _) indent E _.
  unfold text_at; cbn [SerializeJSONProperty value_tokens rev app].
  rewrite Hfinite.
  unfold is_number_literal in Hliteral.
  destruct (Number_toString n) as [|c0 l] eqn:Htext; [discriminate|].
  destruct (number_start c0) as [p0|] eqn:Hstart; [|discriminate].
  destruct (number_run p0 l) as [p|] eqn:Hrun; [|discriminate].
  split.
  - intros c rest Hc.
    cbn [app fold_left]. rewrite (lex_number_start _ _ _ Hstart).
    rewrite (lex_number_run _ _ _ _ _ _ Hrun).
    cbn [fold_left]. f_equal.
    unfold lex_step at 1, scanning; cbn [mode].
    rewrite (number_ends p c Hc), Hliteral.
    unfold lex_step at 1; cbn [mode]. unfold emit; cbn [emitted].
    rewrite rev_app_distr, rev_involutive. reflexivity.
  - cbn [fold_left]. rewrite (lex_number_start _ _ _ Hstart).
    rewrite <- (app_nil_r l), (lex_number_run _ _ _ _ _ _ Hrun).
    cbn [fold_left]. unfold scanned, scanning; cbn [mode emitted].
    rewrite Hliteral, rev_app_distr, rev_involutive, app_nil_r.
    reflexivity.
Qed.


(** **** Arrays and objects *)

Lemma join_cons sep p q (r : list JSString) :
  join sep (p :: q :: r) = p ++ sep ++ join sep (q :: r).
Proof. reflexivity. Qed.

Lemma lex_line_end rest E :
  fold_left lex_step (LF ++ rest) (scanning LBetween E)
  = fold_left lex_step rest (scanning LBetween E).
Proof. reflexivity. Qed.

Lemma scans_before_line_end (v : JSValue) indent E rest :
  scans v ->
  forallb Locality.isJSONWhiteSpace indent = true ->
  fold_left lex_step (text_at indent v ++ LF ++ rest) (scanning LBetween E)
  = fold_left lex_step rest
      (scanning LBetween (rev (value_tokens v) ++ E)).
Proof.
  intros Hv Hi.
  exact (proj1 (Hv indent E Hi) 10 rest (or_intror eq_refl)).
Qed.

Lemma scans_before_comma (v : JSValue) indent E rest :
  scans v ->
  forallb Locality.isJSONWhiteSpace indent = true ->
  fold_left lex_step (text_at indent v ++ lit "," ++ rest)
    (scanning LBetween E)
  = fold_left lex_step rest
      (scanning LBetween (TComma :: rev (value_tokens v) ++ E)).
Proof.
  intros Hv Hi.
  exact (proj1 (Hv indent E Hi) 44 rest (or_introl eq_refl)).
Qed.

Lemma lex_closing_bracket rest E :
  fold_left lex_step (lit "]" ++ rest) (scanning LBetween E)
  = fold_left lex_step rest (scanning LBetween (TRightBracket :: E)).
Proof. reflexivity. Qed.

Lemma lex_closing_brace rest E :
  fold_left lex_step (lit "}" ++ rest) (scanning LBetween E)
  = fold_left lex_step rest (scanning LBetween (TRightBrace :: E)).
Proof. reflexivity. Qed.

Lemma lex_opening_bracket rest E :
  fold_left lex_step (lit "[" ++ rest) (scanning LBetween E)
  = fold_left lex_step rest (scanning LBetween (TLeftBracket :: E)).
Proof. reflexivity. Qed.

Lemma lex_opening_brace rest E :
  fold_left lex_step (lit "{" ++ rest) (scanning LBetween E)
  = fold_left lex_step rest (scanning LBetween (TLeftBrace :: E)).
Proof. reflexivity. Qed.

Lemma lex_colon_space rest E :
  fold_left lex_step (lit ":" ++ lit " " ++ rest) (scanning LBetween E)
  = fold_left lex_step rest (scanning LBetween (TColon :: E)).
Proof. reflexivity. Qed.

Lemma elements_scan (items : list JSValue) :
  items <> [] ->
  Forall scans items ->
  forall indent stepback E rest,
    forallb Locality.isJSONWhiteSpace indent = true ->
    forallb Locality.isJSONWhiteSpace stepback = true ->
    fold_left lex_step
      (join (separator indent) (map (text_at indent) items)
       ++ LF ++ stepback ++ lit "]" ++ rest)
      (scanning LBetween E)
    = fold_left lex_step rest
        (scanning LBetween (rev (element_tokens items) ++ E)).
Proof.
  induction items as [|x [|y r] IH];
    intros Hne Hall indent stepback E rest Hi Hs;
    [congruence| |]; inversion Hall as [|? ? Hx Hr]; subst.
  - cbn [map join].
    rewrite scans_before_line_end, lex_white, lex_closing_bracket
      by assumption.
    change (element_tokens [x]) with (value_tokens x ++ [TRightBracket]).
    rewrite rev_app_distr. reflexivity.
  - cbn [map]. rewrite join_cons. unfold separator at 1.
    rewrite <- !app_assoc.
    rewrite scans_before_comma, lex_line_end, lex_white by assumption.
    change (text_at indent y :: map (text_at indent) r)
      with (map (text_at indent) (y :: r)).
    rewrite IH by (congruence || assumption).
    rewrite element_tokens_cons, rev_app_distr. cbn [rev].
    now rewrite <- !app_assoc.
Qed.

Lemma members_scan (props : list (JSString * JSValue)) :
  props <> [] ->
  Forall (fun kx => scans (snd kx)) props ->
  forall indent stepback E rest,
    forallb Locality.isJSONWhiteSpace indent = true ->
    forallb Locality.isJSONWhiteSpace stepback = true ->
    fold_left lex_step
      (join (separator indent) (map (member_text indent) props)
       ++ LF ++ stepback ++ lit "}" ++ rest)
      (scanning LBetween E)
    = fold_left lex_step rest
        (scanning LBetween (rev (member_tokens props) ++ E)).
Proof.
  induction props as [|[k x] [|ky r] IH];
    intros Hne Hall indent stepback E rest Hi Hs;
    [congruence| |]; inversion Hall as [|? ? Hx Hr]; subst;
    cbn [snd] in Hx.
  - cbn [map join]. unfold member_text; cbn [fst snd].
    rewrite <- !app_assoc, lex_QuoteJSONString, lex_colon_space.
    rewrite scans_before_line_end, lex_white, lex_closing_brace
      by assumption.
    change (member_tokens [(k, x)])
      with (TString k :: TColon :: value_tokens x ++ [TRightBrace]).
    cbn [rev]. rewrite rev_app_distr. cbn [rev app].
    now rewrite <- !app_assoc.
  - cbn [map]. rewrite join_cons. unfold separator at 1.
    unfold member_text at 1; cbn [fst snd].
    rewrite <- !app_assoc, lex_QuoteJSONString, lex_colon_space.
    rewrite scans_before_comma, lex_line_end, lex_white by assumption.
    change (member_text indent ky :: map (member_text indent) r)
      with (map (member_text indent) (ky :: r)).
    rewrite IH by (congruence || assumption).
    rewrite member_tokens_cons. cbn [fst snd rev].
    rewrite rev_app_distr. cbn [rev app].
    now rewrite <- !app_assoc.
Qed.

(** The scanner reads the text of a well-formed value as the tokens of
    the value. *)
Lemma value_scans (v : JSValue) :
  well_formed v -> numbers_read_back v -> scans v.
Proof.
  induction v as [ | |b|n|s|items IH|props IH] using value_ind;
    intros Hwf Hnum.
  - destruct Hwf.
  - apply scans_anywhere; intros; reflexivity.
  - apply scans_anywhere; intros; destruct b; reflexivity.
  - now apply scans_number.
  - apply scans_anywhere; intros indent E rest _.
    apply lex_QuoteJSONString.
  - apply well_formed_array in Hwf. apply numbers_read_back_array in Hnum.
    assert (Hall : Forall scans items).
    { rewrite Forall_forall in *. auto. }
    apply scans_anywhere; intros indent E rest Hi.
    destruct items as [|x r]; [reflexivity|].
    rewrite text_at_array, <- !app_assoc.
    rewrite lex_opening_bracket, lex_line_end.
    rewrite lex_white by assumption. rewrite (lex_white gap) by reflexivity.
    rewrite elements_scan by (congruence || auto using white_gap).
    change (value_tokens (JArray (x :: r)))
      with (TLeftBracket :: element_tokens (x :: r)).
    cbn [rev]. now rewrite <- app_assoc.
  - apply well_formed_object in Hwf as [Horder Hwf].
    apply numbers_read_back_object in Hnum.
    assert (Hall : Forall (fun kx => scans (snd kx)) props).
    { rewrite Forall_forall in *. auto. }
    assert (Hdef : Forall (fun kx : JSString * JSValue =>
                             snd kx <> JUndefined) props).
    { rewrite Forall_forall in *. intros kx Hin.
      apply well_formed_defined; auto. }
    apply scans_anywhere; intros indent E rest Hi.
    destruct props as [|kx r]; [reflexivity|].
    rewrite text_at_object by assumption. rewrite <- !app_assoc.
    rewrite lex_opening_brace, lex_line_end.
    rewrite lex_white by assumption. rewrite (lex_white gap) by reflexivity.
    rewrite members_scan by (congruence || auto using white_gap).
    change (value_tokens (JObject (kx :: r)))
      with (TLeftBrace :: member_tokens (kx :: r)).
    cbn [rev]. now rewrite <- app_assoc.
Qed.

(** *** The round trip *)

(** A well-formed value whose numbers are read back is what
    JSON.parse reads in the text JSON.stringify writes for it. *)
Lemma parse_stringify (v : JSValue) :
  well_formed v -> numbers_read_back v ->
  stringify v = JString (text_at [] v)
  /\ parse (text_at [] v) = inr v.
Proof.
  intros Hwf Hnum. split.
  - unfold stringify.
    now rewrite (serialize_defined [] v (well_formed_defined v Hwf)).
  - unfold parse. rewrite tokens_scanned.
    rewrite (proj2 (value_scans v Hwf Hnum [] [] eq_refl)).
    rewrite app_nil_r, rev_involutive.
    rewrite <- (app_nil_r (value_tokens v)).
    now rewrite (value_tokens_parse v Hwf Hnum [] []).
Qed.

(** *** What the parser builds *)

Lemma finish_built (v : JSValue) stack :
  well_formed v -> Forall built_frame stack -> built (finish v stack).
Proof.
  intros Hv Hs. destruct Hs as [|f stack Hf Hs]; [exact Hv|].
  destruct f as [before|props key]; cbn [finish built built_frame] in *.
  - split; [constructor|]; assumption.
  - split; [|assumption]. destruct Hf as [Ho Hf]. split.
    + now apply CreateDataProperty_order.
    + now apply (CreateDataProperty_values well_formed).
Qed.

Lemma parse_value_built (t : Token) stack :
  Forall built_frame stack -> built (parse_value t stack).
Proof.
  intros Hs. destruct t; cbn [parse_value built];
    try exact I; try exact Hs; now apply finish_built.
Qed.

Lemma parse_step_built (st : ParseState) (t : Token) :
  built st -> built (parse_step st t).
Proof.
  intros H.
  assert (Hnil : built_props (@nil (JSString * JSValue))) by (split; [reflexivity|constructor]).
  destruct st; cbn [parse_step built] in *; try exact I.
  - now apply parse_value_built.
  - assert (Hin : Forall built_frame (InArray [] :: stack))
      by (constructor; [constructor|assumption]).
    destruct t; try (now apply parse_value_built).
    apply finish_built; [exact I|assumption].
  - destruct t; cbn [built]; try exact I.
    + apply finish_built; [|assumption].
      now apply well_formed_object.
    + split; assumption.
  - destruct t; cbn [built]; try exact I. exact H.
  - destruct H as [Hp Hs]. destruct t; cbn [built]; try exact I.
    constructor; assumption.
  - destruct H as [Hb Hs]. destruct t; cbn [built]; try exact I.
    + apply finish_built; [|assumption].
      apply well_formed_array. now apply Forall_rev.
    + constructor; assumption.
  - destruct H as [Hp Hs]. destruct t; cbn [built]; try exact I.
    + apply finish_built; [|assumption]. now apply well_formed_object.
    + split; assumption.
Qed.

Lemma parse_steps_built (ts : list Token) (st : ParseState) :
  built st -> built (fold_left parse_step ts st).
Proof.
  revert st. induction ts as [|t ts IH]; intros st H; [exact H|].
  apply IH. now apply parse_step_built.
Qed.

(** Whatever JSON.parse returns holds no undefined, and each of its
    objects lists every key once, the array indices first and in
    ascending order. *)
Lemma parse_well_formed (text : JSString) (v : JSValue) :
  parse text = inr v -> well_formed v.
Proof.
  unfold parse. destruct (tokens text) as [ts|]; [|discriminate].
  pose proof (parse_steps_built ts (PValue []) (Forall_nil _)) as H.
  destruct (fold_left parse_step ts (PValue [])); try discriminate.
  intros [= <-]. exact H.
Qed.

(** A parsed value whose numbers are read back is a fixed point of
    writing and reading. *)
Lemma parse_stringify_parse (text : JSString) (v : JSValue) :
  parse text = inr v -> numbers_read_back v ->
  exists text', stringify v = JString text' /\ parse text' = inr v.
Proof.
  intros Hp Hn. exists (text_at [] v).
  apply parse_stringify; [|exact Hn]. now apply (parse_well_formed text).
Qed.

(** X16: JSON.stringify(v, null, 2) followed by JSON.parse gives v back,
    for every value that holds no undefined, whose objects list their
    keys in enumeration order, each once, and whose numbers are finite
    and are read back from what they print as. *)
Theorem stringify_parse_round_trip (v : JSValue) :
  well_formed v -> numbers_read_back v ->
  exists text, stringify v = JString text /\ parse text = inr v.
Proof.
  intros Hwf Hnum. exists (text_at [] v). now apply parse_stringify.
Qed.

End Values.

Section Handler.
Context {num : Type} {F64 : Float64 num} {M : Node.ModelClient}.
Import Node Server Execution Facts Claims.

#[local] Abbreviation JSValue := (JSValue num).
#[local] Abbreviation World := (World num M).

(** X17: the plan of a 200 answer holds no undefined, and each of its
    objects lists every key once, array indices first and ascending;
    when its numbers are read back from what they print as, the plan
    text inside the generator and the explainer prompt is read by
    JSON.parse as the plan of the answer. *)
Theorem answered_plan_reads_back (req_body : JSValue) (w : World)
  (answer : Response num) :
  sent (handle req_body w) = sent w ++ [answer] ->
  status answer = 200 ->
  exists plan code explanation,
    body answer = generation_result plan code explanation
    /\ well_formed plan
    /\ (numbers_read_back plan ->
        JSON.parse (serialized_plan plan) = inr plan).
Proof.
  intros Hsent Hstatus.
  revert Hsent. ways req_body w; intros Hsent.
  - made Hsent. injection Hsent as <-. discriminate.
  - made Hsent. injection Hsent as <-. discriminate.
  - destruct Hpipe; made Hsent; injection Hsent as <-; try discriminate.
    exists plan, t2, t3. split; [reflexivity|].
    assert (Hwf : well_formed plan) by (eapply parse_well_formed; eauto).
    split; [exact Hwf|]. intros Hnum.
    destruct (parse_stringify plan Hwf Hnum) as [Hs Hp].
    unfold serialized_plan. now rewrite Hs.
Qed.

End Handler.

End JSONFacts.

(** ** White space around the planner text *)

Module PaddingFacts.
Import JS JSON Node Server Execution Facts Locality Claims.
Import JSONTexts PlannerTextFacts JSONFacts.

Section Scanner.

(** The first character of a text that is no JSON white space. *)
Lemma first_not_json_white (s : JSString) :
  forallb isJSONWhiteSpace s = false ->
  exists ws c r,
    s = ws ++ c :: r
    /\ forallb isJSONWhiteSpace ws = true
    /\ isJSONWhiteSpace c = false.
Proof.
  induction s as [|d s IH]; cbn [forallb]; [discriminate|].
  destruct (isJSONWhiteSpace d) eqn:Hd.
  - intros H. destruct (IH H) as (ws & c & r & -> & Hws & Hc).
    exists (d :: ws), c, r. cbn [forallb]. rewrite Hd, Hws. auto.
  - intros _. exists [], d, s. auto.
Qed.

(** White space of the language that is no JSON white space (a
    no-break space, a byte order mark, a line separator) is an error
    between two tokens. *)
Lemma wide_space_is_no_token (c : code_unit) (E : list Token) :
  isWhiteSpaceOrLineTerminator c = true ->
  isJSONWhiteSpace c = false ->
  mode (lex_step (scanning LBetween E) c) = LError.
Proof.
  intros Hw Hj. unfold lex_step, scanning; cbn [mode].
  unfold lex_between. unfold isJSONWhiteSpace in Hj. rewrite Hj.
  unfold isDigit.
  repeat match goal with
    | |- context [?x =? ?k] =>
        destruct (N.eqb_spec x k) as [->|?]; [discriminate Hw|]
    end.
  destruct ((48 <=? c) && (c <=? 57)) eqn:Hd; [|reflexivity].
  apply andb_true_iff in Hd as [H1 H2].
  apply N.leb_le in H1, H2.
  unfold isWhiteSpaceOrLineTerminator in Hw.
  repeat match type of Hw with
    | context [c =? ?k] =>
        replace (c =? k) with false in Hw
          by (symmetry; apply N.eqb_neq; lia)
    end.
  replace (8192 <=? c) with false in Hw
    by (symmetry; apply N.leb_gt; lia).
  discriminate Hw.
Qed.

(** A text with such a character before its first token is no JSON
    text. *)
Lemma wide_space_does_not_scan (pre rest : JSString) :
  forallb isWhiteSpaceOrLineTerminator pre = true ->
  forallb isJSONWhiteSpace pre = false ->
  tokens (pre ++ rest) = None.
Proof.
  intros Hw Hj.
  destruct (first_not_json_white pre Hj) as (ws & c & r & -> & Hws & Hc).
  rewrite forallb_app in Hw. cbn [forallb] in Hw.
  apply andb_true_iff in Hw as [_ Hw].
  apply andb_true_iff in Hw as [Hw _].
  unfold tokens. change {| mode := LBetween; emitted := [] |}
    with (scanning LBetween []).
  rewrite <- app_assoc, lex_white by assumption.
  cbn [app fold_left].
  now rewrite (lex_error_stays _ _ (wide_space_is_no_token c [] Hw Hc)).
Qed.

End Scanner.

Section Handler.
Context {num : Type} {F64 : Float64 num} {M : ModelClient}.

#[local] Abbreviation JSValue := (JSValue num).
#[local] Abbreviation World := (World num M).

(** X13: the handler parses the planner text after trimming it.  When
    the planner answers a JSON text with white space of the language
    around it, the text without the white space is what is logged, the
    request goes on to the generator call with the plan of that text,
    and this also where the white space holds characters that
    JSON.parse refuses (a byte order mark, a no-break space): without
    the trim of line 109 the answer would have been a SyntaxError. *)
Theorem planner_text_padding (req_body : JSValue) (w : World)
  (p1 pre t post : JSString) (rest : list Call) (plan : JSValue) :
  calls (handle req_body w)
  = calls w ++ call p1 (inr (pre ++ t ++ post)) :: rest ->
  forallb isWhiteSpaceOrLineTerminator pre = true ->
  forallb isWhiteSpaceOrLineTerminator post = true ->
  trim t = t ->
  JSON.parse t = inr plan ->
  (exists message previousCode p2 result rest',
     destructure_body req_body = inr (message, previousCode)
     /\ generatorPrompt plan previousCode = inr p2
     /\ rest = call p2 result :: rest')
  /\ (exists logged, new_console req_body w = LogString t :: logged)
  /\ (forallb isJSONWhiteSpace pre = false ->
      JSON.parse (num := num) (pre ++ t ++ post) = inl SyntaxError).
Proof.
  intros Hcalls Hpre Hpost Htrim Hparse.
  assert (Hraw : trim (pre ++ t ++ post) = t)
    by (rewrite trim_padding by assumption; exact Htrim).
  split; [|split].
  - revert Hcalls. ways req_body w; intros Hcalls.
    + made Hcalls; discriminate.
    + made Hcalls; discriminate.
    + exists message', previous'.
      destruct Hpipe; made Hcalls; try discriminate;
        injection Hcalls; intros; subst;
        match goal with
        | H : JSON.parse (trim (pre ++ t ++ post)) = _ |- _ =>
            rewrite Hraw, Hparse in H; try discriminate H;
            injection H as <-
        end; eauto 10.
  - unfold new_console. revert Hcalls. ways req_body w; intros Hcalls.
    + made Hcalls; discriminate.
    + made Hcalls; discriminate.
    + destruct Hpipe; made Hcalls; try discriminate;
        injection Hcalls; intros; subst;
        unfold after; cbn [console]; rewrite skipn_length_app;
        rewrite Hraw; eauto.
  - intros Hwide. unfold JSON.parse.
    now rewrite wide_space_does_not_scan.
Qed.

End Handler.

End PaddingFacts.

(** ** The further properties on scenarios *)

Module MoreScenarios.
Import JS Node Server Execution Facts Locality IndexJsExecution.
Import Stubs PlannerTexts IntegerNumbers.
Import IndexJsFacts PlannerTextFacts.
Import JSONShape JSONTexts JSONFacts PaddingFacts.

(** The handler of index.js on the text not json. *)
Lemma index_js_forwards_planner_text_witness :
  exists result rest',
    [call (IndexJs.generatorPrompt (lit "not json")) (inr fragment);
     call (IndexJs.explainerPrompt (lit "not json")) (inr prose)]
    = call (IndexJs.generator_opening ++ IndexJs.allowed_components
            ++ IndexJs.generator_plan_label ++ lit "not json"
            ++ IndexJs.generator_closing) result
        :: rest'
    /\ (forall code,
          result = inr code ->
          exists result',
            rest'
            = [call (IndexJs.explainer_opening ++ lit "not json"
                     ++ IndexJs.explainer_closing) result']).
Proof.
  apply (index_js_forwards_planner_text (M := scripted) dashboard_request
           (started not_json)
           (rendered (IndexJs.plannerPrompt
                        (JString (lit "Create a dashboard with user stats"))
                        JUndefined))
           (lit "not json")).
  vm_compute; reflexivity.
Defined.

(** A body without message under both handlers. *)
Lemma handlers_agree_at_the_guard_witness :
  index_handle (JObject []) (started all_good)
  = handle (JObject []) (started all_good)
  /\ calls (handle (JObject []) (started all_good))
     = calls (started all_good).
Proof.
  apply (handlers_agree_at_the_guard (M := scripted) (JObject [])
           (started all_good)).
  right. exists JUndefined, JUndefined. split; reflexivity.
Defined.

(** The planner answers with two spaces, a line feed, a no-break space
    and a byte order mark. *)
Lemma blank_planner_text_fails_witness :
  @nil Call = []
  /\ sent (handle dashboard_request (started blank))
     = sent (started blank)
       ++ [{| status := 500; body := internal_server_error |}].
Proof.
  apply (blank_planner_text_fails (M := scripted) dashboard_request
           (started blank)
           (rendered (plannerPrompt
                        (JString (lit "Create a dashboard with user stats"))
                        JUndefined))
           (lit "  " ++ wide_space) []);
    vm_compute; reflexivity.
Defined.

(** The planner answers with its plan inside a markdown fence. *)
Lemma unstartable_planner_text_fails_witness :
  @nil Call = []
  /\ sent (handle dashboard_request (started fenced))
     = sent (started fenced)
       ++ [{| status := 500; body := internal_server_error |}].
Proof.
  apply (unstartable_planner_text_fails (M := scripted) dashboard_request
           (started fenced)
           (rendered (plannerPrompt
                        (JString (lit "Create a dashboard with user stats"))
                        JUndefined))
           fenced_text [] 96
           (lit "``json" ++ LF ++ navbar_plan_text ++ LF ++ lit "```"));
    vm_compute; reflexivity.
Defined.

(** The plan text after a byte order mark and before a line feed and
    a no-break space. *)
Lemma planner_text_padding_witness :
  (exists message previousCode p2 result rest',
     destructure_body dashboard_request = inr (message, previousCode)
     /\ generatorPrompt navbar_plan previousCode = inr p2
     /\ [call (rendered (generatorPrompt navbar_plan JUndefined))
           (inr fragment);
         call (rendered (explainerPrompt navbar_plan)) (inr prose)]
        = call p2 result :: rest')
  /\ (exists logged,
        new_console dashboard_request (started padded)
        = LogString navbar_plan_text :: logged)
  /\ (forallb isJSONWhiteSpace [65279] = false ->
      JSON.parse (num := Z) ([65279] ++ navbar_plan_text ++ [10; 160])
      = inl SyntaxError).
Proof.
  apply (planner_text_padding (M := scripted) dashboard_request
           (started padded)
           (rendered (plannerPrompt
                        (JString (lit "Create a dashboard with user stats"))
                        JUndefined))
           [65279] navbar_plan_text [10; 160]);
    vm_compute; reflexivity.
Defined.

(** A message that is an object with a toString property. *)
Lemma unprintable_fields_fail_witness :
  calls (handle (request_with unprintable JNull) (started all_good))
  = calls (started all_good)
  /\ model (handle (request_with unprintable JNull) (started all_good))
     = model (started all_good)
  /\ sent (handle (request_with unprintable JNull) (started all_good))
     = sent (started all_good)
       ++ [{| status := 500; body := internal_server_error |}].
Proof.
  apply (unprintable_fields_fail (M := scripted)
           (request_with unprintable JNull) unprintable JNull
           (started all_good) TypeError).
  - reflexivity.
  - reflexivity.
  - left; reflexivity.
Defined.

(** The value chart_props, written and read back. *)
Lemma stringify_parse_round_trip_witness :
  exists text,
    JSON.stringify chart_props = JString text
    /\ JSON.parse text = inr chart_props.
Proof.
  apply (stringify_parse_round_trip chart_props);
    repeat split; vm_compute; reflexivity.
Defined.

(** A plan with numbers in it, from the answer to the prompts. *)
Lemma answered_plan_reads_back_witness :
  exists plan code explanation,
    body (success chart_plan fragment prose)
    = generation_result plan code explanation
    /\ well_formed plan
    /\ (numbers_read_back plan ->
        JSON.parse (serialized_plan plan) = inr plan).
Proof.
  apply (answered_plan_reads_back (M := scripted) dashboard_request
           (started chart_planned) (success chart_plan fragment prose));
    vm_compute; reflexivity.
Defined.

End MoreScenarios.
